(** * Product listing page: table state, loader and cell renderers

    A shallow embedding of the three page variants of the repository:

    - [IndexPaged]: first script of [app/pages/index.vue] (lines 1-429),
      the page with hand-written "previous / next" pagination;
    - [IndexPlain]: second script of [app/pages/index.vue] (lines 430-795),
      the same page without pagination;
    - [Part000]: the compact page that lets the table widget paginate.

    Numbers of the page ([price], [rating], [progress], ...) are JavaScript
    numbers; every finite one is a rational, so they are embedded in [Q].
    Reactive [ref]s become fields of a state record and every callback
    becomes a function on that record.  An [async] function is cut at its
    [await]: the part before it, the continuation after a fulfilled promise
    and the [catch] continuation are three separate handlers, each of which
    runs to completion like any JavaScript callback. *)

From Stdlib Require Import ZArith QArith Qminmax Qround Qabs Lia Lqa.
From Stdlib Require Import Ascii String.
From Stdlib Require Import DecimalString DecimalPos DecimalN DecimalZ.
From stdpp Require Import base list gmap sets strings.

Local Open Scope Z_scope.

(** ** Data model *)

(** [type Product] of [index.vue] (lines 17-29); [id] and [stock] are whole
    numbers in the data the pages load. *)
Record Product := mkProduct {
  id : Z;
  title : string;
  description : string;
  price : Q;
  discountPercentage : Q;
  rating : Q;
  stock : Z;
  brand : string;
  category : string;
  thumbnail : string;
  images : list string
}.

(** The argument of [toast.add]. *)
Record Toast := mkToast {
  toast_title : string;
  toast_color : string;
  toast_icon : string
}.

(** ** JavaScript built-ins used by the pages *)

(** [Array.prototype.slice(start, end)]: negative bounds count from the
    end, both bounds are clamped to the length, an empty range gives the
    empty array. *)
Definition slice {A} (s e : Z) (l : list A) : list A :=
  let len := Z.of_nat (length l) in
  let k := if s <? 0 then Z.max (len + s) 0 else Z.min s len in
  let fin := if e <? 0 then Z.max (len + e) 0 else Z.min e len in
  take (Z.to_nat (fin - k)) (drop (Z.to_nat k) l).

(** [String.prototype.includes]: [needle] occurs somewhere in [hay]. *)
Fixpoint includes (needle hay : string) : bool :=
  String.prefix needle hay ||
  match hay with
  | EmptyString => false
  | String _ rest => includes needle rest
  end.

(** [Math.ceil(a / b)] for an integer [a] and a positive integer [b]. *)
Definition ceil_div (a b : Z) : Z := Qceiling (inject_Z a / inject_Z b).

(** Modelled from the spec: the [title] column filter of the table widget,
    whose code is not part of the repository.  The widget keeps, of the
    rows it was given, those whose title contains the filter text; the
    empty text keeps every row. *)
Definition filterRows (text : string) (rows : list Product) : list Product :=
  filter (λ p, includes text (title p) = true) rows.

(** ** [Array.prototype.sort] with a comparator that draws random numbers

    The comparator of [randomize] ignores its arguments and answers
    [Math.random() - 0.5].  [rng] is the sequence of numbers [Math.random]
    returns and the counter says how many have been drawn; the sort is an
    insertion sort that asks the comparator where the next element goes. *)
Section RandomSort.
Context {A : Type}.
Variable rng : nat → Q.

(** [() => Math.random() - 0.5], with the draw counter threaded. *)
Definition coin (n : nat) : Q * nat := ((rng n - (1 # 2))%Q, S n).

Fixpoint insert_by (x : A) (l : list A) (n : nat) : list A * nat :=
  match l with
  | [] => ([x], n)
  | y :: l' =>
      let '(c, n1) := coin n in
      if Qle_bool c 0 then (x :: y :: l', n1)
      else let '(r, n2) := insert_by x l' n1 in (y :: r, n2)
  end.

Fixpoint sort_by (l : list A) (n : nat) : list A * nat :=
  match l with
  | [] => ([], n)
  | x :: l' =>
      let '(sorted, n1) := sort_by l' n in
      insert_by x sorted n1
  end.
End RandomSort.

(** ** Cell renderers shared by the pages *)

(** Decimal digit [k] (for [0 <= k <= 9]) as a character. *)
Definition digit_char (k : Z) : ascii := ascii_of_nat (48 + Z.to_nat k).

(** A natural number in decimal, without leading zeros (["0"] for zero). *)
Definition decimal (n : Z) : string :=
  NilZero.string_of_uint (N.to_uint (Z.to_N n)).

(** The integer [n] for which [n / 10] is closest to [x], the larger one on
    a tie: the rounding step of [Number.prototype.toFixed(1)]. *)
Definition tenths (x : Q) : Z := Qfloor (10 * x + (1 # 2)).

(** [x.toFixed(1)] for a finite [x] below [10^21] in absolute value: a
    negative [x] is printed as ["-"] followed by the digits of [-x]. *)
Definition toFixed1 (x : Q) : string :=
  let sign := if Qle_bool 0 x then "" else "-" in
  let n := tenths (Qabs x) in
  sign +:+ decimal (n / 10) +:+ "." +:+ String (digit_char (n mod 10)) "".

(** What the rating cell hands to [h('div', { class }, text)]. *)
Record RatingCell := mkRatingCell {
  rating_class : string;
  rating_text : string
}.

(** [cell] of the [rating] column (identical in all three pages). *)
Definition ratingCell (row : Product) : RatingCell :=
  let rating := rating row in
  let textColor :=
    if Qle_bool (45 # 10) rating then "text-green-500" else "text-red-500" in
  mkRatingCell ("font-medium " +:+ textColor) (toFixed1 rating).

(** What the [#expanded] slot of [index.vue] renders for a row. *)
Record ExpandedPanel := mkExpandedPanel {
  panel_images : list string;
  panel_title : string;
  panel_description : string;
  panel_discount : Q;
  panel_stock : Z;
  panel_stock_color : string
}.

(** The [#expanded] template (lines 350-378 and 763-788). *)
Definition expandedPanel (row : Product) : ExpandedPanel :=
  mkExpandedPanel
    (slice 0 3 (images row))
    (title row)
    (description row)
    (discountPercentage row)
    (stock row)
    (if 50 <? stock row then "success" else "warning").

(** * The page with hand-written pagination ([index.vue], lines 1-429) *)
Module IndexPaged.

(** The refs of the script, the table-widget state the template and the
    columns act on (the [title] column filter, the row selection and the
    row expansion) and the part of the browser the callbacks act on: the
    interval timers that are still running, the next timer handle, the
    pending [setTimeout] callbacks, the fetches that have not answered yet,
    the toasts shown and the console. *)
Record State := mkState {
  data : list Product;
  loading : bool;
  progress : Q;
  progressInterval : option positive;
  currentPage : Z;
  itemsPerPage : Z;
  titleFilter : string;
  rowSelection : gset nat;
  expanded : gset Z;
  intervals : gset positive;
  nextTimer : positive;
  timeouts : nat;
  inflight : nat;
  toasts : list Toast;
  console : list string
}.

Definition set_data v (s : State) : State :=
  mkState v (loading s) (progress s) (progressInterval s) (currentPage s)
    (itemsPerPage s) (titleFilter s) (rowSelection s) (expanded s)
    (intervals s) (nextTimer s) (timeouts s) (inflight s) (toasts s)
    (console s).
Definition set_loading v (s : State) : State :=
  mkState (data s) v (progress s) (progressInterval s) (currentPage s)
    (itemsPerPage s) (titleFilter s) (rowSelection s) (expanded s)
    (intervals s) (nextTimer s) (timeouts s) (inflight s) (toasts s)
    (console s).
Definition set_progress v (s : State) : State :=
  mkState (data s) (loading s) v (progressInterval s) (currentPage s)
    (itemsPerPage s) (titleFilter s) (rowSelection s) (expanded s)
    (intervals s) (nextTimer s) (timeouts s) (inflight s) (toasts s)
    (console s).
Definition set_progressInterval v (s : State) : State :=
  mkState (data s) (loading s) (progress s) v (currentPage s) (itemsPerPage s)
    (titleFilter s) (rowSelection s) (expanded s) (intervals s) (nextTimer s)
    (timeouts s) (inflight s) (toasts s) (console s).
Definition set_currentPage v (s : State) : State :=
  mkState (data s) (loading s) (progress s) (progressInterval s) v
    (itemsPerPage s) (titleFilter s) (rowSelection s) (expanded s)
    (intervals s) (nextTimer s) (timeouts s) (inflight s) (toasts s)
    (console s).
Definition set_titleFilter v (s : State) : State :=
  mkState (data s) (loading s) (progress s) (progressInterval s)
    (currentPage s) (itemsPerPage s) v (rowSelection s) (expanded s)
    (intervals s) (nextTimer s) (timeouts s) (inflight s) (toasts s)
    (console s).
Definition set_rowSelection v (s : State) : State :=
  mkState (data s) (loading s) (progress s) (progressInterval s)
    (currentPage s) (itemsPerPage s) (titleFilter s) v (expanded s)
    (intervals s) (nextTimer s) (timeouts s) (inflight s) (toasts s)
    (console s).
Definition set_expanded v (s : State) : State :=
  mkState (data s) (loading s) (progress s) (progressInterval s)
    (currentPage s) (itemsPerPage s) (titleFilter s) (rowSelection s) v
    (intervals s) (nextTimer s) (timeouts s) (inflight s) (toasts s)
    (console s).
Definition set_intervals v (s : State) : State :=
  mkState (data s) (loading s) (progress s) (progressInterval s)
    (currentPage s) (itemsPerPage s) (titleFilter s) (rowSelection s)
    (expanded s) v (nextTimer s) (timeouts s) (inflight s) (toasts s)
    (console s).
Definition set_nextTimer v (s : State) : State :=
  mkState (data s) (loading s) (progress s) (progressInterval s)
    (currentPage s) (itemsPerPage s) (titleFilter s) (rowSelection s)
    (expanded s) (intervals s) v (timeouts s) (inflight s) (toasts s)
    (console s).
Definition set_timeouts v (s : State) : State :=
  mkState (data s) (loading s) (progress s) (progressInterval s)
    (currentPage s) (itemsPerPage s) (titleFilter s) (rowSelection s)
    (expanded s) (intervals s) (nextTimer s) v (inflight s) (toasts s)
    (console s).
Definition set_inflight v (s : State) : State :=
  mkState (data s) (loading s) (progress s) (progressInterval s)
    (currentPage s) (itemsPerPage s) (titleFilter s) (rowSelection s)
    (expanded s) (intervals s) (nextTimer s) (timeouts s) v (toasts s)
    (console s).
Definition set_toasts v (s : State) : State :=
  mkState (data s) (loading s) (progress s) (progressInterval s)
    (currentPage s) (itemsPerPage s) (titleFilter s) (rowSelection s)
    (expanded s) (intervals s) (nextTimer s) (timeouts s) (inflight s) v
    (console s).
Definition set_console v (s : State) : State :=
  mkState (data s) (loading s) (progress s) (progressInterval s)
    (currentPage s) (itemsPerPage s) (titleFilter s) (rowSelection s)
    (expanded s) (intervals s) (nextTimer s) (timeouts s) (inflight s)
    (toasts s) v.

(** The state the script creates (lines 31-38), in a fresh browser tab. *)
Definition initial : State :=
  mkState [] true 0 None 1 10 "" ∅ ∅ ∅ 1%positive 0 0 [] [].

(** *** Pagination (lines 40-52) *)

Definition paginatedData (s : State) : list Product :=
  let start := (currentPage s - 1) * itemsPerPage s in
  slice start (start + itemsPerPage s) (data s).

Definition totalPages (s : State) : Z :=
  ceil_div (Z.of_nat (length (data s))) (itemsPerPage s).

Definition changePage (page : Z) (s : State) : State :=
  if (1 <=? page) && (page <=? totalPages s)
  then set_currentPage page s
  else s.

(** The rows on screen: [<UTable :data="paginatedData">] (line 345) hands
    the widget the current page, and the widget applies its [title] filter
    to the rows it was given. *)
Definition visibleRows (s : State) : list Product :=
  filterRows (titleFilter s) (paginatedData s).

(** *** Loading (lines 55-91) *)

(** [if (progressInterval.value) clearInterval(progressInterval.value)];
    clearing a timer that already stopped does nothing. *)
Definition clearProgressInterval (s : State) : State :=
  match progressInterval s with
  | Some h => set_intervals (intervals s ∖ {[h]}) s
  | None => s
  end.

(** Body of the [setInterval] callback (lines 60-65); [r] is the value of
    [Math.random()]. *)
Definition progressTick (r : Q) (s : State) : State :=
  let s1 := set_progress (Qmin (progress s + r * 15) 95) s in
  if Qle_bool 95 (progress s1) then clearProgressInterval s1 else s1.

(** [fetchProducts] up to its first [await] (lines 56-68). *)
Definition fetchProducts_begin (s : State) : State :=
  let s1 := set_loading true s in
  let s2 := set_progress 0 s1 in
  let h := nextTimer s2 in
  let s3 :=
    set_nextTimer (Pos.succ h) (set_intervals ({[h]} ∪ intervals s2) s2) in
  let s4 := set_progressInterval (Some h) s3 in
  set_inflight (S (inflight s4)) s4.

(** The [try] block after both awaits succeeded (lines 70-76), then the
    [finally] block. *)
Definition fetchProducts_then (products : list Product) (s : State) : State :=
  let s1 := set_data products s in
  let s2 := set_progress 100 s1 in
  let s3 := set_timeouts (S (timeouts s2)) s2 in
  let s4 := clearProgressInterval s3 in
  set_inflight (pred (inflight s4)) s4.

Definition errorToast : Toast :=
  mkToast "Error fetching products" "error" "i-lucide-alert-circle".

(** The [catch] block (lines 78-85), then the [finally] block. *)
Definition fetchProducts_catch (s : State) : State :=
  let s1 := set_console (console s ++ ["Error fetching products:"]) s in
  let s2 := set_toasts (toasts s1 ++ [errorToast]) s1 in
  let s3 := set_loading false s2 in
  let s4 := clearProgressInterval s3 in
  set_inflight (pred (inflight s4)) s4.

(** The [setTimeout] callback of line 74. *)
Definition hideLoading (s : State) : State :=
  set_timeouts (pred (timeouts s)) (set_loading false s).

(** *** Randomize and reload (lines 230-237) *)
Definition reloadData (s : State) : State := fetchProducts_begin s.

Definition randomize (rng : nat → Q) (s : State) : State :=
  set_data (fst (sort_by rng (data s) 0)) s.

(** *** Row selection

    The selection lives in the table widget, whose code is not part of the
    repository.  The page gives the widget the rows of the current page
    only ([:data="paginatedData"], line 345) and no row key, so the widget
    knows a row by its position in the array it was handed: the selection
    is a set of positions.  The checkbox handlers of the [select] column
    (lines 97-110) pass the new checkbox value to [row.toggleSelected] and
    [table.toggleAllPageRowsSelected]. *)

(** The rows on screen with their positions in [paginatedData]. *)
Definition shownRows (s : State) : list (nat * Product) :=
  filter (λ ip, includes (titleFilter s) (title ip.2) = true)
    (imap (λ i p, (i, p)) (paginatedData s)).

Definition toggleSelected (position : nat) (value : bool) (s : State) : State :=
  set_rowSelection
    (if value
     then rowSelection s ∪ {[position]}
     else rowSelection s ∖ {[position]}) s.

Definition toggleAllPageRowsSelected (value : bool) (s : State) : State :=
  let positions : gset nat := list_to_set (fst <$> shownRows s) in
  set_rowSelection
    (if value
     then rowSelection s ∪ positions
     else rowSelection s ∖ positions) s.

(** The products whose checkbox is ticked ([row.getIsSelected()]). *)
Definition selectedRows (s : State) : list Product :=
  snd <$> filter (λ ip, ip.1 ∈ rowSelection s) (shownRows s).

(** *** Row expansion

    Modelled from the spec: [row.toggleExpanded], called by the "expand"
    entry of the row menu (lines 200-203), is code of the table widget.
    The spec keeps [expandedRowIds] and has the toggle flip the membership
    of the row's id. *)
Definition toggleExpanded (row : Product) (s : State) : State :=
  set_expanded
    (if decide (id row ∈ expanded s)
     then expanded s ∖ {[id row]} else expanded s ∪ {[id row]}) s.

(** The detail panels on screen: one for each visible row that is
    expanded. *)
Definition expandedPanels (s : State) : list ExpandedPanel :=
  expandedPanel <$> filter (λ p, id p ∈ expanded s) (visibleRows s).

(** *** Events *)
Inductive event :=
| Mounted                                   (* onMounted, line 93 *)
| ReloadClick                               (* the "reload" button *)
| IntervalFires (h : positive) (r : Q)      (* timer [h] ticks *)
| FetchResolves (products : list Product)   (* response parsed *)
| FetchRejects                              (* fetch or parse failed *)
| TimeoutFires                              (* the 500 ms timeout *)
| PageClick (page : Z)                      (* previous / next *)
| RandomizeClick (rng : nat → Q)
| FilterInput (text : string)
| RowChecked (position : nat) (value : bool)
| AllPageRowsChecked (value : bool)
| RowExpandToggled (row : Product)
| Unmounted.                                (* the page is torn down *)

(** [<UTable v-else>] (lines 291 and 342-345) exists only while [loading]
    is false: when a load starts, the table is taken down and its filter,
    selection and expansion are gone with it. *)
Definition unmountTable (s : State) : State :=
  set_expanded ∅ (set_rowSelection ∅ (set_titleFilter "" s)).

(** One event of the browser's event loop.  A timer only ticks while it is
    running, a response only arrives for a request that is pending, the
    table only takes input while it is on screen (the filter box reaches it
    through [table?.tableApi?.]), and the script registers no teardown
    hook, so tearing the page down runs none of its code. *)
Definition step (e : event) (s : State) : State :=
  match e with
  | Mounted => unmountTable (fetchProducts_begin s)
  | ReloadClick => unmountTable (reloadData s)
  | IntervalFires h r =>
      if decide (h ∈ intervals s) then progressTick r s else s
  | FetchResolves products =>
      match inflight s with O => s | S _ => fetchProducts_then products s end
  | FetchRejects =>
      match inflight s with O => s | S _ => fetchProducts_catch s end
  | TimeoutFires =>
      match timeouts s with O => s | S _ => hideLoading s end
  | PageClick page => changePage page s
  | RandomizeClick rng => randomize rng s
  | FilterInput text => if loading s then s else set_titleFilter text s
  | RowChecked position value =>
      if loading s then s else toggleSelected position value s
  | AllPageRowsChecked value =>
      if loading s then s else toggleAllPageRowsSelected value s
  | RowExpandToggled row => if loading s then s else toggleExpanded row s
  | Unmounted => s
  end.

Definition run (es : list event) (s : State) : State :=
  foldl (λ st e, step e st) s es.

End IndexPaged.

(** * The page without pagination ([index.vue], lines 430-795)

    The second script has the refs and the loader of the first one without
    [currentPage] and [itemsPerPage] (its states are those of [IndexPaged]
    with these two fields left alone) and differs in two places: the
    progress callback is written with an assignment, and the table is
    given the whole data set. *)
Module IndexPlain.
Import IndexPaged.

(** Body of the [setInterval] callback (lines 471-479). *)
Definition progressTick (r : Q) (s : State) : State :=
  let s1 := set_progress (progress s + r * 15) s in
  if Qle_bool 95 (progress s1)
  then clearProgressInterval (set_progress 95 s1)
  else s1.

(** [<UTable :data="data">] (line 758): the widget filters the whole data
    set and shows every row that is left. *)
Definition visibleRows (s : State) : list Product :=
  filterRows (titleFilter s) (data s).

End IndexPlain.

(** * The compact page ([part_000]) *)
Module Part000.

(** The refs of the script (lines 19-22), the widget's [title] filter, and
    the browser state its loader acts on.  The page never calls [useToast];
    [toasts] is the application-wide toast list it leaves alone. *)
Record State := mkState {
  data : list Product;
  loading : bool;
  pageIndex : Z;
  pageSize : Z;
  titleFilter : string;
  inflight : nat;
  toasts : list Toast;
  console : list string
}.

Definition initial : State := mkState [] true 0 10 "" 0 [] [].

(** [fetchProducts] up to its first [await] (lines 34-37). *)
Definition fetchProducts_begin (s : State) : State :=
  mkState (data s) true (pageIndex s) (pageSize s) (titleFilter s)
    (S (inflight s)) (toasts s) (console s).

(** The [try] block after both awaits succeeded (line 39), then the
    [finally] block (line 43). *)
Definition fetchProducts_then (products : list Product) (s : State) : State :=
  mkState products false (pageIndex s) (pageSize s) (titleFilter s)
    (pred (inflight s)) (toasts s) (console s).

(** The [catch] block (line 41), then the [finally] block (line 43). *)
Definition fetchProducts_catch (s : State) : State :=
  mkState (data s) false (pageIndex s) (pageSize s) (titleFilter s)
    (pred (inflight s)) (toasts s)
    (console s ++ ["Error fetching products:"]).

(** Modelled from the spec: the row pipeline of the table widget, which
    receives the whole data set together with the pagination state (lines
    143-152) and whose code is not part of the repository.  The spec's
    steps (1) and (3): filter by title, then cut out the current page. *)
Definition filteredRows (s : State) : list Product :=
  filterRows (titleFilter s) (data s).

Definition visibleRows (s : State) : list Product :=
  let start := pageIndex s * pageSize s in
  slice start (start + pageSize s) (filteredRows s).

End Part000.

(** * Sample data and named properties *)

(** A product of which only the id and the title matter. *)
Definition sampleProduct (i : Z) (t : string) : Product :=
  mkProduct i t "" 0 0 0 0 "" "" "" [].

(** Twenty-five products with ids 1 to 25. *)
Definition products25 : list Product :=
  (λ i, sampleProduct i "item") <$> seqZ 1 25.

(** Ten apples followed by one banana. *)
Definition fruit : list Product :=
  ((λ i, sampleProduct i "apple") <$> seqZ 1 10)
  ++ [sampleProduct 11 "banana"].

(** The draws 0.25, 0.75, 0.25, ... of [Math.random]. *)
Definition alternating (n : nat) : Q := if Nat.even n then 1 # 4 else 3 # 4.

(** Characters ["0"] to ["9"], and strings made of them only. *)
Definition is_digit (c : ascii) : bool :=
  (48 <=? nat_of_ascii c)%nat && (nat_of_ascii c <=? 57)%nat.

Fixpoint digits_only (s : string) : bool :=
  match s with
  | EmptyString => true
  | String c rest => is_digit c && digits_only rest
  end.

(** The number a digit stands for, the number a run of digits denotes
    (read from the left), and numerals without a superfluous leading
    zero. *)
Definition digit_value (c : ascii) : Z := Z.of_nat (nat_of_ascii c) - 48.

Fixpoint digits_value_from (acc : Z) (w : string) : Z :=
  match w with
  | EmptyString => acc
  | String c rest => digits_value_from (10 * acc + digit_value c) rest
  end.

Definition digits_value (w : string) : Z := digits_value_from 0 w.

Definition no_leading_zero (w : string) : bool :=
  match w with
  | String "0"%char (String _ _) => false
  | _ => true
  end.

Module PagedProps.
Import IndexPaged.

(** The first row of the current page exists. *)
Definition slice_in_range (s : State) : Prop :=
  (currentPage s - 1) * itemsPerPage s <= Z.of_nat (length (data s)) - 1.

(** The current page is one of the pages [changePage] accepts. *)
Definition page_valid (s : State) : Prop :=
  1 <= currentPage s <= totalPages s.

(** Events that do not replace the data set by a response. *)
Definition keeps_rows (e : event) : bool :=
  match e with FetchResolves _ => false | _ => true end.

(** Events that do not write [data]. *)
Definition leaves_data (e : event) : bool :=
  match e with FetchResolves _ | RandomizeClick _ => false | _ => true end.

(** Events that do not start a load. *)
Definition starts_no_load (e : event) : bool :=
  match e with Mounted | ReloadClick => false | _ => true end.

(** How the request of a load ends. *)
Inductive outcome :=
| Fulfilled (products : list Product)
| Rejected.

(** The continuation of [fetchProducts] that runs for an outcome. *)
Definition settle (o : outcome) (s : State) : State :=
  match o with
  | Fulfilled products => fetchProducts_then products s
  | Rejected => fetchProducts_catch s
  end.

(** The state after the first load delivered [products]. *)
Definition loaded (products : list Product) : State :=
  run [Mounted; FetchResolves products; TimeoutFires] initial.

End PagedProps.

(** * Template bindings and row menu of the page with pagination *)
Module PagedTemplate.
Import IndexPaged.

(** [:disabled="currentPage === 1"] of the "previous" button (line 384)
    and [:disabled="currentPage === totalPages"] of the "next" button
    (line 394). *)
Definition prevDisabled (s : State) : bool := currentPage s =? 1.
Definition nextDisabled (s : State) : bool := currentPage s =? totalPages s.

(** [@click="changePage(currentPage - 1)"] (line 385) and
    [@click="changePage(currentPage + 1)"] (line 395). *)
Definition prevClick (s : State) : State := changePage (currentPage s - 1) s.
Definition nextClick (s : State) : State := changePage (currentPage s + 1) s.

(** [{{ Math.round(progress) }}] of the loading overlay (line 296):
    [Math.round] rounds to the nearest integer, a half upwards. *)
Definition progressLabel (s : State) : Z := Qfloor (progress s + (1 # 2)).

(** What [paginatedData] is once [page] is the current page, and the pages
    1 to [totalPages] one after the other. *)
Definition pageRows (page : Z) (s : State) : list Product :=
  paginatedData (set_currentPage page s).

Definition allPages (s : State) : list (list Product) :=
  (λ page, pageRows page s) <$> seqZ 1 (totalPages s).

(** [id.toString()] for a whole number that a JavaScript number holds
    exactly (below [2^53] in absolute value): its decimal digits, with a
    minus sign when negative.  Larger numbers are outside this model. *)
Definition toString (n : Z) : string := NilZero.string_of_int (Z.to_int n).

Definition copiedToast : Toast :=
  mkToast "ID скопійовано!" "success" "i-lucide-circle-check".

(** [onSelect] of the "copy id" entry of the row menu (lines 189-198): the
    text written to the clipboard, and the state with the toast added. *)
Definition copyId (row : Product) (s : State) : string * State :=
  (toString (id row), set_toasts (toasts s ++ [copiedToast]) s).

(** [Math.random] never answers a negative number. *)
Definition draw_nonneg (e : event) : bool :=
  match e with IntervalFires _ r => Qle_bool 0 r | _ => true end.

(** Events that do not write [loading] to false. *)
Definition keeps_loading (e : event) : bool :=
  match e with TimeoutFires | FetchRejects => false | _ => true end.

End PagedTemplate.

(** * Arithmetic and list facts used below *)

Lemma ceil_div_Z (a b : Z) : ceil_div a b = - ((- a) / b).
Proof.
  unfold ceil_div, Qceiling. f_equal.
  rewrite Zdiv_Qdiv. apply Qfloor_comp.
  rewrite inject_Z_opp. unfold Qdiv. ring.
Qed.

Lemma ceil_div_ge (a b p : Z) :
  0 < b → (p <= ceil_div a b ↔ (p - 1) * b < a).
Proof.
  intros Hb. rewrite ceil_div_Z.
  pose proof (Z.div_mod (- a) b ltac:(lia)) as Hdm.
  pose proof (Z.mod_pos_bound (- a) b Hb) as Hm.
  set (q := (- a) / b) in *. set (r := (- a) `mod` b) in *.
  clearbody q r.
  assert (Ha : a = - (b * q) - r) by lia.
  split; intros H.
  - assert ((p - 1 + q) * b <= - b) by nia. nia.
  - destruct (Z.le_gt_cases p (- q)) as [|Hgt]; [done |].
    assert (0 <= (p - 1 + q) * b) by nia. nia.
Qed.

Lemma slice_firstn {A} (n : Z) (l : list A) :
  0 <= n → slice 0 n l = take (Z.to_nat n) l.
Proof.
  intros Hn. unfold slice.
  replace (0 <? 0) with false by reflexivity.
  replace (n <? 0) with false by (symmetry; apply Z.ltb_ge; lia).
  rewrite (Z.min_l 0) by lia. rewrite Z.sub_0_r.
  change (Z.to_nat 0) with 0%nat. rewrite drop_0.
  destruct (Z.le_ge_cases n (Z.of_nat (length l))) as [Hle | Hge].
  - by rewrite Z.min_l by lia.
  - rewrite Z.min_r by lia. rewrite Nat2Z.id.
    rewrite (take_ge l (length l)) by lia.
    rewrite (take_ge l (Z.to_nat n)) by lia. done.
Qed.

Section RandomSortFacts.
Context {A : Type}.
Variable rng : nat → Q.

Lemma insert_by_perm (x : A) (l : list A) (n : nat) :
  (insert_by rng x l n).1 ≡ₚ x :: l.
Proof.
  revert n. induction l as [| y l IH]; intros n; simpl; [done |].
  destruct (Qle_bool _ _); simpl; [done |].
  specialize (IH (S n)). destruct (insert_by rng x l (S n)) as [r n2].
  simpl in *. rewrite IH. apply Permutation_swap.
Qed.

Lemma sort_by_perm (l : list A) (n : nat) :
  (sort_by rng l n).1 ≡ₚ l.
Proof.
  revert n. induction l as [| x l IH]; intros n; simpl; [done |].
  specialize (IH n). destruct (sort_by rng l n) as [sorted n1].
  simpl in IH. rewrite insert_by_perm. by rewrite IH.
Qed.
End RandomSortFacts.

(** * The page with hand-written pagination: facts *)
Module PagedFacts.
Import IndexPaged PagedProps.

(** ** Page navigation *)

Lemma totalPages_ge (page : Z) (s : State) :
  0 < itemsPerPage s →
  page <= totalPages s ↔ (page - 1) * itemsPerPage s < Z.of_nat (length (data s)).
Proof. intros Hsize. unfold totalPages. by apply ceil_div_ge. Qed.

Lemma changePage_accepts (page : Z) (s : State) :
  1 <= page <= totalPages s → changePage page s = set_currentPage page s.
Proof.
  intros [H1 H2]. unfold changePage.
  apply Z.leb_le in H1, H2. by rewrite H1, H2.
Qed.

Lemma changePage_rejects (page : Z) (s : State) :
  ¬ (1 <= page <= totalPages s) → changePage page s = s.
Proof.
  intros H. unfold changePage.
  destruct (1 <=? page) eqn:H1; [| done].
  destruct (page <=? totalPages s) eqn:H2; [| done].
  apply Z.leb_le in H1, H2. lia.
Qed.

(** C4: with a positive page size, [changePage p] makes [p] the current
    page (and changes nothing else) exactly when
    [1 <= p <= ceil(rowCount / pageSize)], that is when [p] is positive and
    the first row of page [p] exists, and leaves the state alone for every
    other [p].  With 25 products and page size 10, page 1 shows rows
    1-10, page 3 shows the five rows 21-25, and asking for page 4 on page 3
    stays on page 3. *)
Theorem changePage_spec (page : Z) (s : State) :
  0 < itemsPerPage s →
  let last := ceil_div (Z.of_nat (length (data s))) (itemsPerPage s) in
  (1 <= page <= last →
     changePage page s = set_currentPage page s ∧
     currentPage (changePage page s) = page) ∧
  (¬ (1 <= page <= last) → changePage page s = s) ∧
  (1 <= page <= last ↔
   1 <= page ∧ (page - 1) * itemsPerPage s < Z.of_nat (length (data s))) ∧
  (let s25 := loaded products25 in
   itemsPerPage s25 = 10 ∧ currentPage s25 = 1 ∧
   paginatedData s25 = ((λ i, sampleProduct i "item") <$> seqZ 1 10) ∧
   paginatedData (changePage 3 s25) = ((λ i, sampleProduct i "item") <$> seqZ 21 5) ∧
   length (paginatedData (changePage 3 s25)) = 5%nat ∧
   currentPage (changePage 4 (changePage 3 s25)) = 3 ∧
   changePage 4 (changePage 3 s25) = changePage 3 s25).
Proof.
  intros Hsize last. split; [| split; [| split]].
  - intros Hin. rewrite (changePage_accepts page s Hin). done.
  - apply changePage_rejects.
  - pose proof (totalPages_ge page s Hsize) as Hge. fold last in Hge.
    unfold totalPages in Hge. tauto.
  - vm_compute. repeat split; reflexivity.
Qed.

Lemma changePage_spec_witness :
  currentPage (changePage 2 (loaded products25)) = 2.
Proof.
  assert (Hsize : 0 < itemsPerPage (loaded products25)) by (vm_compute; reflexivity).
  destruct (changePage_spec 2 (loaded products25) Hsize) as [Hin _].
  apply Hin. vm_compute. split; discriminate.
Defined.

(** ** Randomize *)

(** C10: [randomize] replaces the data set by a permutation of itself,
    whatever [Math.random] returns: the same records with the same
    multiplicities (so none is added, removed or altered), and no other
    part of the state changes. *)
Theorem randomize_permutes (rng : nat → Q) (s : State) :
  data (randomize rng s) ≡ₚ data s ∧
  length (data (randomize rng s)) = length (data s) ∧
  (∀ p, p ∈ data (randomize rng s) ↔ p ∈ data s) ∧
  randomize rng s = set_data (data (randomize rng s)) s.
Proof.
  assert (Hperm : data (randomize rng s) ≡ₚ data s).
  { unfold randomize. destruct s; simpl. apply sort_by_perm. }
  split; [done |]. split; [by rewrite Hperm |]. split.
  - intros p. by rewrite Hperm.
  - by destruct s.
Qed.

(** ** Loading and the progress timer *)

Lemma progress_clear (s : State) :
  progress (clearProgressInterval s) = progress s.
Proof. unfold clearProgressInterval. by destruct (progressInterval s), s. Qed.

Lemma progressTick_capped (r : Q) (s : State) :
  (progress (progressTick r s) <= 95)%Q.
Proof.
  unfold progressTick.
  assert (Hs1 : progress (set_progress (Qmin (progress s + r * 15) 95) s)
                = Qmin (progress s + r * 15) 95) by (by destruct s).
  destruct (Qle_bool _ _); rewrite ?progress_clear, Hs1; apply Q.le_min_r.
Qed.

Lemma plain_progressTick_capped (r : Q) (s : State) :
  (progress (IndexPlain.progressTick r s) <= 95)%Q.
Proof.
  unfold IndexPlain.progressTick.
  assert (Hs1 : progress (set_progress (progress s + r * 15) s)
                = (progress s + r * 15)%Q) by (by destruct s).
  rewrite Hs1. destruct (Qle_bool 95 _) eqn:Hcap.
  - rewrite progress_clear. destruct s; simpl. apply Qle_refl.
  - rewrite Hs1. apply Qlt_le_weak, Qnot_le_lt.
    intros Hle. apply Qle_bool_iff in Hle. congruence.
Qed.

(** A tick adds at most 15 when [Math.random] answers in [[0, 1)]. *)
Lemma progressTick_increment (r : Q) (s : State) :
  (0 <= r < 1)%Q → (progress (progressTick r s) <= progress s + 15)%Q.
Proof.
  intros [Hr0 Hr1]. unfold progressTick.
  assert (Hs1 : progress (set_progress (Qmin (progress s + r * 15) 95) s)
                = Qmin (progress s + r * 15) 95) by (by destruct s).
  assert (Hmin : (Qmin (progress s + r * 15) 95 <= progress s + 15)%Q).
  { eapply Qle_trans; [apply Q.le_min_l |]. lra. }
  destruct (Qle_bool _ _); rewrite ?progress_clear, Hs1; exact Hmin.
Qed.

(** C7: whatever the progress value and whatever [Math.random] returns, the
    value a tick of the progress timer leaves behind is at most the cap 95,
    hence strictly below 100 (in both scripts of [index.vue]), and exceeds
    the value before by at most 15 when the draw is in [[0, 1)]; and the
    continuation that runs when the fetch has resolved sets it to exactly
    100. *)
Theorem progress_below_100_until_resolved
    (r : Q) (products : list Product) (s : State) :
  (progress (progressTick r s) < 100)%Q ∧
  (progress (IndexPlain.progressTick r s) < 100)%Q ∧
  (∀ h, (progress (step (IntervalFires h r) s) < 100)%Q ∨
        step (IntervalFires h r) s = s) ∧
  ((0 <= r < 1)%Q → (progress (progressTick r s) <= progress s + 15)%Q) ∧
  progress (fetchProducts_then products s) = 100%Q.
Proof.
  assert (H95 : (95 < 100)%Q) by reflexivity.
  split; [| split; [| split; [| split]]].
  - eapply Qle_lt_trans; [apply progressTick_capped | done].
  - eapply Qle_lt_trans; [apply plain_progressTick_capped | done].
  - intros h. simpl. case_decide; [left | by right].
    eapply Qle_lt_trans; [apply progressTick_capped | done].
  - apply progressTick_increment.
  - destruct s. unfold fetchProducts_then, clearProgressInterval. simpl.
    by case_match.
Qed.

(** ** Case analysis on one event *)

Ltac unfold_handlers :=
  unfold step, settle, reloadData, fetchProducts_begin, fetchProducts_then,
    fetchProducts_catch, hideLoading, changePage, randomize, toggleSelected,
    toggleAllPageRowsSelected, toggleExpanded, unmountTable, progressTick,
    clearProgressInterval in *.

Ltac step_cases s :=
  destruct s; unfold_handlers; simpl in *;
  repeat (case_match; simpl in *); simplify_eq/=.

Ltac timers :=
  rewrite ?elem_of_difference, ?elem_of_union, ?elem_of_singleton in *;
  intuition (subst; lia).

Lemma step_keeps_handle (e : event) (s : State) (h : positive) :
  starts_no_load e = true →
  progressInterval s = Some h → progressInterval (step e s) = Some h.
Proof. intros He Hh. destruct e; try discriminate; by step_cases s. Qed.

Lemma run_keeps_handle (es : list event) (s : State) (h : positive) :
  Forall (λ e, starts_no_load e = true) es →
  progressInterval s = Some h → progressInterval (run es s) = Some h.
Proof.
  intros Hes. revert s. induction Hes as [| e es He _ IH]; intros s Hh; [done |].
  simpl. apply IH. by apply step_keeps_handle.
Qed.

Lemma step_nextTimer_mono (e : event) (s : State) :
  (nextTimer s <= nextTimer (step e s))%positive.
Proof. destruct e; step_cases s; lia. Qed.

Lemma run_nextTimer_mono (es : list event) (s : State) :
  (nextTimer s <= nextTimer (run es s))%positive.
Proof.
  revert s. induction es as [| e es IH]; intros s; simpl; [lia |].
  etrans; [apply (step_nextTimer_mono e) | apply IH].
Qed.

Lemma settle_nextTimer (o : outcome) (s : State) :
  nextTimer (settle o s) = nextTimer s.
Proof. destruct o; by step_cases s. Qed.

Lemma settle_clears (o : outcome) (s : State) (h : positive) :
  progressInterval s = Some h → h ∉ intervals (settle o s).
Proof. intros Hh. destruct o; step_cases s; timers. Qed.

(** A timer that has stopped stays stopped: [setInterval] never hands out
    an old handle again. *)
Lemma step_stays_stopped (e : event) (s : State) (h : positive) :
  h ∉ intervals s → (h < nextTimer s)%positive →
  h ∉ intervals (step e s).
Proof.
  intros Hout Hlt. destruct e; step_cases s; try done; timers.
Qed.

Lemma run_stays_stopped (es : list event) (s : State) (h : positive) :
  h ∉ intervals s → (h < nextTimer s)%positive →
  h ∉ intervals (run es s).
Proof.
  revert s. induction es as [| e es IH]; intros s Hout Hlt; [done |].
  simpl. apply IH; [by apply step_stays_stopped |].
  eapply Pos.lt_le_trans; [done | apply step_nextTimer_mono].
Qed.

(** C6, as the code has it: the timer a load starts is running and is the
    one [progressInterval] holds; once the continuation of that load has
    run, on success and on failure alike, and provided no other load was
    started while it was pending, the timer is stopped and none of its
    ticks fires in any later state, whatever happens afterwards. *)
Theorem progress_timer_cancelled_on_completion
    (s : State) (es es' : list event) (o : outcome) (r : Q) :
  Forall (λ e, starts_no_load e = true) es →
  let h := nextTimer s in
  let settled := settle o (run es (fetchProducts_begin s)) in
  ((h ∈ intervals (fetchProducts_begin s)) ∧
   progressInterval (fetchProducts_begin s) = Some h ∧
   (h ∉ intervals (run es' settled)) ∧
   step (IntervalFires h r) (run es' settled) = run es' settled).
Proof.
  intros Hes h settled.
  assert (Hh : progressInterval (fetchProducts_begin s) = Some h)
    by (by destruct s).
  assert (Hnext : nextTimer (fetchProducts_begin s) = Pos.succ h)
    by (by destruct s).
  assert (Hstopped : h ∉ intervals (run es' settled)).
  { apply run_stays_stopped.
    - apply settle_clears. by apply run_keeps_handle.
    - unfold settled. rewrite settle_nextTimer.
      eapply Pos.lt_le_trans; [| apply run_nextTimer_mono].
      rewrite Hnext. lia. }
  repeat split; try done.
  - destruct s; simpl. apply elem_of_union_l, elem_of_singleton. done.
  - simpl. by rewrite decide_False.
Qed.

Lemma progress_timer_cancelled_on_completion_witness :
  1%positive ∉
    intervals (run [IntervalFires 1 (1 # 2); ReloadClick]
      (settle Rejected
        (run [IntervalFires 1 (1 # 2); PageClick 2]
          (fetchProducts_begin initial)))).
Proof.
  refine (proj1 (proj2 (proj2
    (progress_timer_cancelled_on_completion initial
       [IntervalFires 1 (1 # 2); PageClick 2]
       [IntervalFires 1 (1 # 2); ReloadClick] Rejected 0 _)))).
  repeat constructor.
Defined.

(** C6 fails for teardown: the script registers no teardown hook, so after
    the page is torn down while a load is pending the timer is still
    running and its next tick still changes the progress value. *)
Lemma teardown_leaves_timer_running :
  let s := run [Mounted; Unmounted] initial in
  (1%positive ∈ intervals s ∧
   progressInterval s = Some 1%positive ∧
   step (IntervalFires 1 (1 # 2)) s ≠ s ∧
   ¬ (progress (step (IntervalFires 1 (1 # 2)) s) == progress s)%Q).
Proof.
  vm_compute.
  split; [reflexivity |]. split; [reflexivity |]. split; discriminate.
Qed.

(** Why the proviso: a second load overwrites [progressInterval], so the
    first timer is never cleared, not by either completion and not by its
    own ticks at the cap, which clear the handle stored last. *)
Lemma overlapping_loads_leak_timer :
  let s := run [Mounted; ReloadClick; FetchResolves fruit;
                FetchResolves fruit; IntervalFires 1 (1 # 2);
                IntervalFires 1 (1 # 2)] initial in
  (inflight s = 0%nat ∧ progressInterval s = Some 2%positive ∧
   intervals s = {[1%positive]}).
Proof.
  vm_compute. repeat split; reflexivity.
Qed.

(** ** The current page stays in range *)

Lemma page_valid_in_range (s : State) :
  0 < itemsPerPage s → page_valid s → slice_in_range s ∧ data s ≠ [].
Proof.
  intros Hsize [H1 H2]. apply totalPages_ge in H2; [| done].
  split; [unfold slice_in_range; lia |].
  intros Hnil. rewrite Hnil in H2. simpl in H2. nia.
Qed.

(** What an event other than the arrival of a response leaves alone. *)
Lemma step_frame (e : event) (s : State) :
  keeps_rows e = true →
  itemsPerPage (step e s) = itemsPerPage s ∧
  length (data (step e s)) = length (data s) ∧
  (currentPage (step e s) = currentPage s ∨
   1 <= currentPage (step e s) <= totalPages s).
Proof.
  intros He.
  destruct e as [ | | h r | ps | | | page | rng | text | row v | v | row | ];
    try discriminate.
  6: { simpl. unfold changePage.
       destruct ((1 <=? page) && (page <=? totalPages s)) eqn:Hok; [| tauto].
       apply andb_true_iff in Hok as [H1 H2]. apply Z.leb_le in H1, H2.
       destruct s; simpl in *. split; [done |]. split; [done |]. right. lia. }
  6: { simpl. unfold randomize. destruct s; simpl.
       split; [done |]. split; [| by left].
       apply Permutation_length, sort_by_perm. }
  all: step_cases s; tauto.
Qed.

Lemma step_page_valid (e : event) (s : State) :
  keeps_rows e = true → 0 < itemsPerPage s → page_valid s →
  0 < itemsPerPage (step e s) ∧ page_valid (step e s).
Proof.
  intros He Hsize Hvalid.
  destruct (step_frame e s He) as (Hsz & Hlen & Hpage).
  split; [by rewrite Hsz |].
  unfold page_valid, totalPages in *. rewrite Hsz, Hlen.
  destruct Hpage as [-> | Hpage]; done.
Qed.

Lemma run_page_valid (es : list event) (s : State) :
  Forall (λ e, keeps_rows e = true) es → 0 < itemsPerPage s → page_valid s →
  0 < itemsPerPage (run es s) ∧ page_valid (run es s).
Proof.
  intros Hes. revert s.
  induction Hes as [| e es He _ IH]; intros s Hsize Hvalid; [done |].
  simpl. destruct (step_page_valid e s He Hsize Hvalid). by apply IH.
Qed.

(** The first load puts the page in range when it delivers any row. *)
Lemma first_load_page_valid (products : list Product) :
  products ≠ [] →
  itemsPerPage (loaded products) = 10 ∧ page_valid (loaded products).
Proof.
  intros Hne. split; [done |].
  unfold page_valid. change (currentPage (loaded products)) with 1.
  split; [done |]. apply totalPages_ge; [done |].
  change (data (loaded products)) with products.
  destruct products; [done | simpl; lia].
Qed.

(** From a state whose current page is one that [changePage] accepts (the
    first load that delivers rows gives such a state), every sequence of
    events in which no new response replaces the data set leads to a state
    with a non-empty data set in which [(currentPage - 1) * itemsPerPage] is
    at most the number of loaded rows minus one; and a request for a page
    after the last one leaves that state as it is. *)
Theorem page_stays_in_range (s : State) (es : list event) (page : Z) :
  0 < itemsPerPage s → page_valid s →
  Forall (λ e, keeps_rows e = true) es →
  let s' := run es s in
  (data s' ≠ [] ∧ slice_in_range s' ∧ paginatedData s' ≠ [] ∧
   (totalPages s' < page → changePage page s' = s')).
Proof.
  intros Hsize Hvalid Hes s'.
  destruct (run_page_valid es s Hes Hsize Hvalid) as [Hsize' Hvalid'].
  fold s' in Hsize', Hvalid'.
  destruct (page_valid_in_range s' Hsize' Hvalid') as [Hrange Hne].
  split; [done |]. split; [done |]. split.
  - unfold paginatedData, slice_in_range in *.
    destruct Hvalid' as [H1 _].
    set (start := (currentPage s' - 1) * itemsPerPage s') in *.
    assert (0 <= start) by nia.
    unfold slice.
    replace (start <? 0) with false by (symmetry; apply Z.ltb_ge; lia).
    replace (start + itemsPerPage s' <? 0) with false
      by (symmetry; apply Z.ltb_ge; lia).
    intros Hnil. apply (f_equal length) in Hnil.
    rewrite length_take, length_drop in Hnil. simpl in Hnil. lia.
  - intros Hover. apply changePage_rejects. lia.
Qed.

Lemma page_stays_in_range_witness :
  slice_in_range
    (run [PageClick 3; RandomizeClick alternating; FilterInput "x";
          PageClick 7; FetchRejects]
       (loaded products25)).
Proof.
  refine (proj1 (proj2
    (page_stays_in_range (loaded products25)
       [PageClick 3; RandomizeClick alternating; FilterInput "x";
        PageClick 7; FetchRejects] 4 _ _ _))).
  - vm_compute. reflexivity.
  - vm_compute. split; discriminate.
  - repeat constructor.
Defined.

(** C2 does not hold across a reload: [fetchProducts] replaces the data
    set and leaves [currentPage] where it was.  With 25 rows, two clicks on
    "next" lead to page 3; a reload that delivers 5 rows then leaves page 3
    of 1: the first row of the page would be row 20 of a 5-row data set,
    the table gets no row, and neither "previous" (page 2) nor "next"
    (page 4) is accepted any more. *)
Theorem reload_leaves_page_out_of_range :
  let s := run [PageClick 2; PageClick 3] (loaded products25) in
  let s' := run [ReloadClick; FetchResolves (take 5 products25);
                 TimeoutFires] s in
  (currentPage s = 3 ∧ slice_in_range s ∧
   data s' ≠ [] ∧ loading s' = false ∧
   currentPage s' = 3 ∧ totalPages s' = 1 ∧
   ¬ slice_in_range s' ∧ paginatedData s' = [] ∧
   changePage (currentPage s' - 1) s' = s' ∧
   changePage (currentPage s' + 1) s' = s').
Proof.
  vm_compute.
  repeat split; try reflexivity; try discriminate.
  intros Hin. by apply Hin.
Qed.

(** ** A failed load *)

Lemma step_leaves_data (e : event) (s : State) :
  leaves_data e = true → data (step e s) = data s.
Proof. intros He. destruct e; try discriminate; by step_cases s. Qed.

Lemma run_leaves_data (es : list event) (s : State) :
  Forall (λ e, leaves_data e = true) es → data (run es s) = data s.
Proof.
  intros Hes. revert s. induction Hes as [| e es He _ IH]; intros s; [done |].
  simpl. rewrite IH. by apply step_leaves_data.
Qed.

(** The [catch] and [finally] blocks of this page: the data set is the one
    stored before, the loading flag is off, the error toast and a console
    line are added, the progress timer is stopped, and the rest of the
    state is as it was. *)
Lemma fetchProducts_catch_frame (s : State) :
  let s' := fetchProducts_catch s in
  data s' = data s ∧ loading s' = false ∧
  toasts s' = toasts s ++ [errorToast] ∧
  console s' = console s ++ ["Error fetching products:"] ∧
  progress s' = progress s ∧ progressInterval s' = progressInterval s ∧
  currentPage s' = currentPage s ∧ itemsPerPage s' = itemsPerPage s ∧
  titleFilter s' = titleFilter s ∧ rowSelection s' = rowSelection s ∧
  expanded s' = expanded s ∧ nextTimer s' = nextTimer s ∧ timeouts s' = timeouts s ∧
  intervals s' = match progressInterval s with
                 | Some h => intervals s ∖ {[h]}
                 | None => intervals s
                 end.
Proof. step_cases s; repeat split; done. Qed.

(** A whole failed load of this page, from the call to the [catch] block,
    with anything in between that does not itself write [data]. *)
Lemma failed_load_keeps_data (s : State) (es : list event) :
  Forall (λ e, leaves_data e = true) es →
  let s' := step FetchRejects (run es (fetchProducts_begin s)) in
  data s' = data s ∧ (inflight (run es (fetchProducts_begin s)) ≠ 0%nat →
    loading s' = false ∧
    toasts s' = toasts (run es (fetchProducts_begin s)) ++ [errorToast]).
Proof.
  intros Hes s'. split.
  - unfold s'. rewrite (step_leaves_data FetchRejects) by done.
    rewrite run_leaves_data by done. by destruct s.
  - intros Hpending. unfold s'. simpl.
    destruct (inflight (run es (fetchProducts_begin s))); [done |].
    by destruct (fetchProducts_catch_frame (run es (fetchProducts_begin s)))
      as (_ & ? & ? & _).
Qed.

(** ** Filtering and the page slice *)

Lemma filterRows_spec (text : string) (rows : list Product) (p : Product) :
  p ∈ filterRows text rows ↔ p ∈ rows ∧ includes text (title p) = true.
Proof. unfold filterRows. rewrite list_elem_of_filter. tauto. Qed.

(** The two pages that hand the widget the whole data set filter before
    anything is cut: the rows before pagination are exactly the loaded rows
    whose title contains the filter text. *)
Lemma whole_table_filters_first (p : Product) :
  (∀ s : Part000.State,
     p ∈ Part000.filteredRows s ↔
     p ∈ Part000.data s ∧ includes (Part000.titleFilter s) (title p) = true) ∧
  (∀ s : State,
     p ∈ IndexPlain.visibleRows s ↔
     p ∈ data s ∧ includes (titleFilter s) (title p) = true).
Proof. split; intros s; apply filterRows_spec. Qed.

(** On this page every row on screen comes from the current slice of the
    unfiltered data set. *)
Lemma visibleRows_within_page (s : State) (p : Product) :
  p ∈ visibleRows s ↔
  p ∈ paginatedData s ∧ includes (titleFilter s) (title p) = true.
Proof. apply filterRows_spec. Qed.

(** C1 does not hold on the page with hand-written pagination, which cuts
    the page out of the unfiltered data set and lets the widget filter
    what is left.  Ten apples and a banana, filter "banana", page 1 of 2:
    the only matching row is the banana, yet the ten slots of page 1 are
    taken by the apples and the page shows no row at all.  The pages that
    give the widget the whole data set show the banana on their first
    page. *)
Theorem filter_runs_after_page_slice :
  let s := run [FilterInput "banana"] (loaded fruit) in
  let s000 := Part000.mkState fruit false 0 10 "banana" 0 [] [] in
  (currentPage s = 1 ∧ totalPages s = 2 ∧
   filterRows (titleFilter s) (data s) = [sampleProduct 11 "banana"] ∧
   paginatedData s = take 10 fruit ∧
   visibleRows s = [] ∧
   visibleRows (changePage 2 s) = [sampleProduct 11 "banana"] ∧
   IndexPlain.visibleRows s = [sampleProduct 11 "banana"] ∧
   Part000.visibleRows s000 = [sampleProduct 11 "banana"]).
Proof. vm_compute. repeat split; reflexivity. Qed.

(** ** Row selection *)

(** C5 does not hold on the page with hand-written pagination, for the
    reason C1 does not: the table is handed the slice of the current page
    and no row key, so a tick sticks to a position on the page, not to a
    product.  With 25 products on page 1, ticking the first row selects
    product 1; after "next" the selection is untouched, yet the ticked row
    is product 11, which was never selected, and product 1 is ticked again
    after "previous". *)
Theorem selection_sticks_to_row_position :
  let s1 := run [RowChecked 0 true] (loaded products25) in
  let s2 := run [PageClick 2] s1 in
  let s3 := run [PageClick 1] s2 in
  (selectedRows s1 = [sampleProduct 1 "item"] ∧
   rowSelection s2 = rowSelection s1 ∧
   selectedRows s2 = [sampleProduct 11 "item"] ∧
   selectedRows s3 = [sampleProduct 1 "item"]).
Proof. vm_compute. repeat split; reflexivity. Qed.

(** ** Row detail panel *)

Lemma paginatedData_loaded (s : State) (p : Product) :
  p ∈ paginatedData s → p ∈ data s.
Proof.
  unfold paginatedData, slice. intros Hp.
  by apply subseteq_take, subseteq_drop in Hp.
Qed.

(** C8: the detail panel of a row shows the first [min 3 n] of the record's
    [n] images in their stored order, its discount percentage and its stock
    level, in the high-stock style when the stock is above 50 units and in
    the low-stock style at 50 units or below; every panel on screen is
    computed from a record of the loaded data set alone, and expanding a
    row starts no request and changes neither the data set nor the loading
    flag. *)
Theorem expanded_panel_from_loaded_record (row : Product) (s : State) :
  let panel := expandedPanel row in
  (panel_images panel = take 3 (images row) ∧
   length (panel_images panel) = Nat.min 3 (length (images row)) ∧
   (∀ i, panel_images panel !! i =
         if decide (i < 3)%nat then images row !! i else None) ∧
   panel_discount panel = discountPercentage row ∧
   panel_stock panel = stock row ∧
   (panel_stock_color panel = "success" ↔ 50 < stock row) ∧
   (panel_stock_color panel = "warning" ↔ stock row <= 50) ∧
   (∀ shown, shown ∈ expandedPanels s →
      ∃ p, p ∈ data s ∧ id p ∈ expanded s ∧ shown = expandedPanel p) ∧
   inflight (step (RowExpandToggled row) s) = inflight s ∧
   data (step (RowExpandToggled row) s) = data s ∧
   loading (step (RowExpandToggled row) s) = loading s).
Proof.
  intros panel.
  assert (Himg : panel_images panel = take 3 (images row)).
  { unfold panel, expandedPanel. simpl. by rewrite slice_firstn. }
  split; [done |]. split; [by rewrite Himg, length_take |]. split.
  { intros i. rewrite Himg. case_decide.
    - by rewrite lookup_take_lt.
    - apply lookup_take_ge. lia. }
  split; [done |]. split; [done |].
  assert (Hshown : ∀ shown, shown ∈ expandedPanels s →
            ∃ p, p ∈ data s ∧ id p ∈ expanded s ∧ shown = expandedPanel p).
  { intros shown Hshown. unfold expandedPanels in Hshown.
    apply list_elem_of_fmap in Hshown as (p & -> & Hp).
    apply list_elem_of_filter in Hp as [Hexp Hvis].
    apply visibleRows_within_page in Hvis as [Hvis _].
    exists p. eauto using paginatedData_loaded. }
  assert (Hframe : inflight (step (RowExpandToggled row) s) = inflight s ∧
                   data (step (RowExpandToggled row) s) = data s ∧
                   loading (step (RowExpandToggled row) s) = loading s)
    by (simpl; destruct (loading s) eqn:Hl; [by rewrite Hl | by destruct s]).
  unfold panel, expandedPanel. simpl panel_stock_color.
  destruct (50 <? stock row) eqn:Hstock.
  - apply Z.ltb_lt in Hstock.
    split; [done |]. split; [split; [discriminate | lia] |]. done.
  - apply Z.ltb_ge in Hstock.
    split; [split; [discriminate | lia] |]. split; [done |]. done.
Qed.

End PagedFacts.

(** * The compact page: facts *)
Module Part000Facts.
Import Part000.

(** The [catch] and [finally] blocks of the compact page: data set kept,
    loading flag off, one console line, and nothing else. *)
Lemma compact_catch_frame (s : State) :
  let s' := fetchProducts_catch s in
  data s' = data s ∧ loading s' = false ∧ toasts s' = toasts s ∧
  console s' = console s ++ ["Error fetching products:"] ∧
  pageIndex s' = pageIndex s ∧ pageSize s' = pageSize s ∧
  titleFilter s' = titleFilter s.
Proof. repeat split. Qed.

(** C3 does not hold on the compact page.  When the first load fails, the
    data set is still the empty one and the loading flag is off, but the
    failure is only written to the console: no notification is recorded,
    whereas the same failure on the page of [index.vue] adds the error
    toast. *)
Theorem failed_load_records_no_toast :
  let s := fetchProducts_catch (fetchProducts_begin initial) in
  let s' := IndexPaged.fetchProducts_catch
              (IndexPaged.fetchProducts_begin IndexPaged.initial) in
  (data s = [] ∧ loading s = false ∧
   console s = ["Error fetching products:"] ∧
   toasts s = [] ∧
   IndexPaged.data s' = [] ∧ IndexPaged.loading s' = false ∧
   IndexPaged.toasts s' = [IndexPaged.errorToast]).
Proof. repeat split. Qed.

End Part000Facts.

(** * The rating cell: facts *)
Module CellFacts.

Lemma digits_only_uint (u : Decimal.uint) :
  digits_only (NilEmpty.string_of_uint u) = true.
Proof. induction u; simpl; auto. Qed.

Lemma decimal_digits (n : Z) :
  digits_only (decimal n) = true ∧ decimal n ≠ "".
Proof.
  unfold decimal, NilZero.string_of_uint.
  destruct (N.to_uint (Z.to_N n)) eqn:Hu;
    try (split; [apply (digits_only_uint (_ u)) | discriminate]).
  split; [reflexivity | discriminate].
Qed.

Lemma digit_char_is_digit (k : Z) :
  0 <= k <= 9 → is_digit (digit_char k) = true.
Proof.
  intros Hk.
  assert (Hcases : k = 0 ∨ k = 1 ∨ k = 2 ∨ k = 3 ∨ k = 4 ∨
                   k = 5 ∨ k = 6 ∨ k = 7 ∨ k = 8 ∨ k = 9) by lia.
  repeat (destruct Hcases as [-> | Hcases]; [reflexivity |]).
  by subst.
Qed.

(** [tenths x / 10] is a multiple of one tenth nearest to [x]. *)
Lemma tenths_nearest (x : Q) :
  (Qabs (inject_Z (tenths x) / 10 - x) <= 1 # 20)%Q.
Proof.
  unfold tenths.
  pose proof (Qfloor_le (10 * x + (1 # 2))) as Hlo.
  pose proof (Qlt_floor (10 * x + (1 # 2))) as Hhi.
  rewrite inject_Z_plus in Hhi. change (inject_Z 1) with 1%Q in Hhi.
  set (n := inject_Z (Qfloor (10 * x + (1 # 2)))) in *. clearbody n.
  apply Qabs_Qle_condition. split.
  - unfold Qdiv. change (/ 10)%Q with (1 # 10)%Q. lra.
  - unfold Qdiv. change (/ 10)%Q with (1 # 10)%Q. lra.
Qed.

Lemma tenths_nonneg (x : Q) : (0 <= x)%Q → 0 <= tenths x.
Proof.
  intros Hx. unfold tenths.
  change 0 with (Qfloor 0). apply Qfloor_resp_le. lra.
Qed.

(** The printed numeral denotes the number printed. *)
Lemma digits_value_from_acc (u : Decimal.uint) (acc : positive) :
  digits_value_from (Z.pos acc) (NilEmpty.string_of_uint u)
  = Z.pos (Pos.of_uint_acc u acc).
Proof.
  revert acc. induction u; intros acc; simpl; [reflexivity | ..];
    rewrite <- IHu; f_equal; unfold digit_value;
    match goal with
    | |- context [nat_of_ascii ?c] =>
        let v := eval vm_compute in (Z.of_nat (nat_of_ascii c)) in
        change (Z.of_nat (nat_of_ascii c)) with v
    end; lia.
Qed.

Lemma digits_value_uint (u : Decimal.uint) :
  digits_value_from 0 (NilEmpty.string_of_uint u) = Z.of_N (Pos.of_uint u).
Proof.
  induction u; simpl; [reflexivity | exact IHu | ..];
    apply (digits_value_from_acc u).
Qed.

Lemma digits_value_decimal (n : Z) : 0 <= n → digits_value (decimal n) = n.
Proof.
  intros Hn. unfold digits_value, decimal.
  pose proof (DecimalN.Unsigned.of_to (Z.to_N n)) as Hback.
  unfold N.of_uint in Hback.
  destruct (N.to_uint (Z.to_N n)) eqn:Hu;
    try (change (NilZero.string_of_uint ?u) with (NilEmpty.string_of_uint u);
         rewrite digits_value_uint, Hback; lia).
  simpl in Hback. simpl. change (digit_value "0") with 0. lia.
Qed.

Lemma no_leading_zero_unorm (u : Decimal.uint) :
  no_leading_zero (NilZero.string_of_uint (Decimal.unorm u)) = true.
Proof. induction u; simpl; done. Qed.

Lemma no_leading_zero_decimal (n : Z) : no_leading_zero (decimal n) = true.
Proof.
  unfold decimal.
  assert (Hnorm : N.to_uint (Z.to_N n) = Decimal.unorm (N.to_uint (Z.to_N n))).
  { rewrite <- DecimalN.Unsigned.to_of. by rewrite DecimalN.Unsigned.of_to. }
  rewrite Hnorm. apply no_leading_zero_unorm.
Qed.

Lemma digit_value_char (k : Z) : 0 <= k <= 9 → digit_value (digit_char k) = k.
Proof.
  intros Hk.
  assert (Hcases : k = 0 ∨ k = 1 ∨ k = 2 ∨ k = 3 ∨ k = 4 ∨
                   k = 5 ∨ k = 6 ∨ k = 7 ∨ k = 8 ∨ k = 9) by lia.
  repeat (destruct Hcases as [-> | Hcases]; [reflexivity |]).
  by subst.
Qed.

(** C9: for a rating below [10^21] in absolute value, the text of the
    rating cell is a minus sign exactly when the rating is negative, then a
    non-empty numeral without superfluous leading zero, a point and exactly
    one more digit; the whole number [m] that the digits before and after
    the point denote together is the one with
    [m <= 10 * |rating| + 1/2 < m + 1], that is [|rating|] rounded to one
    decimal place, a tie upwards, which fixes the text.  The cell has the
    class [text-green-500] if and only if the rating is at least 4.5 and
    the class [text-red-500] otherwise. *)
Theorem rating_cell_one_decimal (row : Product) :
  (Qabs (rating row) < inject_Z (10 ^ 21))%Q →
  let cell := ratingCell row in
  let n := tenths (Qabs (rating row)) in
  let sign := if Qle_bool 0 (rating row) then "" else "-" in
  (rating_text cell =
     sign +:+ decimal (n / 10) +:+ "." +:+ String (digit_char (n mod 10)) "" ∧
   digits_only (decimal (n / 10)) = true ∧ decimal (n / 10) ≠ "" ∧
   is_digit (digit_char (n mod 10)) = true ∧
   (Qabs (inject_Z n / 10 - Qabs (rating row)) <= 1 # 20)%Q ∧
   (∃ (whole : string) (d : ascii) (m : Z),
      rating_text cell =
        (if Qle_bool 0 (rating row) then "" else "-")
        +:+ whole +:+ "." +:+ String d "" ∧
      digits_only whole = true ∧ whole ≠ "" ∧
      no_leading_zero whole = true ∧ is_digit d = true ∧
      m = 10 * digits_value whole + digit_value d ∧
      (inject_Z m <= 10 * Qabs (rating row) + (1 # 2))%Q ∧
      (10 * Qabs (rating row) + (1 # 2) < inject_Z m + 1)%Q) ∧
   (rating_class cell = "font-medium text-green-500" ↔
      (45 # 10 <= rating row)%Q) ∧
   (rating_class cell = "font-medium text-red-500" ↔
      (rating row < 45 # 10)%Q)).
Proof.
  intros _ cell n sign.
  split; [reflexivity |].
  destruct (decimal_digits (n / 10)) as [Hdigits Hne].
  split; [done |]. split; [done |]. split.
  { apply digit_char_is_digit.
    pose proof (Z.mod_pos_bound n 10 ltac:(lia)). lia. }
  split; [apply tenths_nearest |].
  split.
  { assert (Hn : 0 <= n) by (apply tenths_nonneg, Qabs_nonneg).
    assert (Hd : 0 <= n mod 10 <= 9)
      by (pose proof (Z.mod_pos_bound n 10 ltac:(lia)); lia).
    exists (decimal (n / 10)), (digit_char (n mod 10)), n.
    split; [reflexivity |]. split; [done |]. split; [done |].
    split; [apply no_leading_zero_decimal |].
    split; [by apply digit_char_is_digit |]. split.
    { rewrite digits_value_decimal by (apply Z.div_pos; lia).
      rewrite digit_value_char by done.
      pose proof (Z.div_mod n 10 ltac:(lia)). lia. }
    unfold n, tenths. split.
    - apply Qfloor_le.
    - pose proof (Qlt_floor (10 * Qabs (rating row) + (1 # 2))) as Hlt.
      rewrite inject_Z_plus in Hlt. exact Hlt. }
  unfold cell, ratingCell. simpl rating_class.
  destruct (Qle_bool (45 # 10) (rating row)) eqn:Hhigh.
  - apply Qle_bool_iff in Hhigh. split; [done |].
    split; [discriminate | intros Hlt; lra].
  - assert (Hlow : (rating row < 45 # 10)%Q).
    { apply Qnot_le_lt. intros Hle. apply Qle_bool_iff in Hle. congruence. }
    split; [| done]. split; [discriminate | intros Hle; lra].
Qed.

Lemma rating_cell_one_decimal_witness :
  let row := mkProduct 1 "Mascara" "" (999 # 100) 0 (494 # 100) 5 "" "" "" [] in
  rating_text (ratingCell row) = "4.9" ∧
  (rating_class (ratingCell row) = "font-medium text-green-500" ↔
     (45 # 10 <= rating row)%Q).
Proof.
  intros row.
  destruct (rating_cell_one_decimal row ltac:(reflexivity))
    as (Htext & _ & _ & _ & _ & _ & Hgreen & _).
  split; [rewrite Htext; reflexivity | exact Hgreen].
Defined.

End CellFacts.

(** * More facts about the page with pagination *)
Module PagedMore.
Import IndexPaged PagedProps PagedTemplate PagedFacts.

(** ** The page slice *)

Lemma slice_take_drop {A} (a n : Z) (l : list A) :
  0 <= a → 0 <= n →
  slice a (a + n) l = take (Z.to_nat n) (drop (Z.to_nat a) l).
Proof.
  intros Ha Hn. unfold slice.
  replace (a <? 0) with false by (symmetry; apply Z.ltb_ge; lia).
  replace (a + n <? 0) with false by (symmetry; apply Z.ltb_ge; lia).
  set (len := Z.of_nat (length l)).
  destruct (Z.le_gt_cases a len) as [Hle | Hgt].
  - rewrite (Z.min_l a) by done.
    destruct (Z.le_gt_cases (a + n) len) as [Hle' | Hgt'].
    + rewrite Z.min_l by done. f_equal. lia.
    + rewrite Z.min_r by lia.
      rewrite !take_ge; [done | |]; rewrite length_drop; unfold len in *; lia.
  - rewrite (Z.min_r a) by lia. rewrite Z.min_r by lia.
    rewrite !drop_ge by (unfold len in *; lia). by rewrite !take_nil.
Qed.

Lemma length_slice_le {A} (a n : Z) (l : list A) :
  0 <= n → (length (slice a (a + n) l) <= Z.to_nat n)%nat.
Proof.
  intros Hn. unfold slice. rewrite length_take, length_drop.
  destruct (Z.ltb_spec a 0); destruct (Z.ltb_spec (a + n) 0); lia.
Qed.

Lemma paginatedData_take_drop (s : State) :
  0 < itemsPerPage s → 1 <= currentPage s →
  paginatedData s =
    take (Z.to_nat (itemsPerPage s))
      (drop (Z.to_nat ((currentPage s - 1) * itemsPerPage s)) (data s)).
Proof.
  intros Hsize Hpage. unfold paginatedData.
  apply slice_take_drop; nia.
Qed.

Lemma pageRows_take_drop (s : State) (page : Z) :
  0 < itemsPerPage s → 1 <= page →
  pageRows page s =
    take (Z.to_nat (itemsPerPage s))
      (drop (Z.to_nat ((page - 1) * itemsPerPage s)) (data s)).
Proof.
  intros Hsize Hpage. unfold pageRows.
  rewrite paginatedData_take_drop by (by destruct s). by destruct s.
Qed.

(** X1: whatever the current page, even one that [changePage] would never
    produce, the rows handed to the table are a sublist of the data set
    (only loaded rows, in their stored order), and with a page size that is
    not negative there are never more of them than [itemsPerPage]. *)
Theorem paginatedData_sublist (s : State) :
  0 <= itemsPerPage s →
  paginatedData s `sublist_of` data s ∧
  (length (paginatedData s) <= Z.to_nat (itemsPerPage s))%nat.
Proof.
  intros Hsize. split.
  - unfold paginatedData, slice.
    etrans; [apply sublist_take | apply sublist_drop].
  - by apply length_slice_le.
Qed.

Lemma paginatedData_sublist_witness :
  (length (paginatedData (set_currentPage (-1) (loaded products25))) <= 10)%nat.
Proof.
  apply (paginatedData_sublist (set_currentPage (-1) (loaded products25))).
  vm_compute. discriminate.
Defined.

(** X2: with a positive page size and a current page of at least 1, row
    [i] of the page is row [(currentPage - 1) * itemsPerPage + i] of the
    data set for every [i] below the page size, and the page has
    [min itemsPerPage (rowCount - (currentPage - 1) * itemsPerPage)] rows. *)
Theorem paginatedData_rows (s : State) (i : nat) :
  0 < itemsPerPage s → 1 <= currentPage s →
  let start := Z.to_nat ((currentPage s - 1) * itemsPerPage s) in
  let size := Z.to_nat (itemsPerPage s) in
  (paginatedData s !! i =
     if decide (i < size)%nat then data s !! (start + i)%nat else None) ∧
  length (paginatedData s) = Nat.min size (length (data s) - start).
Proof.
  intros Hsize Hpage start size.
  rewrite paginatedData_take_drop by done. fold start size. split.
  - case_decide.
    + by rewrite lookup_take_lt, lookup_drop.
    + apply lookup_take_ge. lia.
  - by rewrite length_take, length_drop.
Qed.

Lemma paginatedData_rows_witness :
  paginatedData (changePage 3 (loaded products25)) !! 4%nat
  = Some (sampleProduct 25 "item").
Proof.
  destruct (paginatedData_rows (changePage 3 (loaded products25)) 4
              ltac:(reflexivity) ltac:(vm_compute; discriminate)) as [Hrow _].
  rewrite Hrow. reflexivity.
Defined.

Lemma totalPages_bounds (s : State) :
  0 < itemsPerPage s →
  (totalPages s - 1) * itemsPerPage s < Z.of_nat (length (data s)) ∧
  Z.of_nat (length (data s)) <= totalPages s * itemsPerPage s ∧
  0 <= totalPages s.
Proof.
  intros Hsize. set (rows := Z.of_nat (length (data s))).
  pose proof (proj1 (totalPages_ge (totalPages s) s Hsize) ltac:(lia)) as Hlo.
  fold rows in Hlo. split; [done |]. split.
  - destruct (Z.le_gt_cases rows (totalPages s * itemsPerPage s)); [done |].
    assert (totalPages s + 1 <= totalPages s); [| lia].
    apply totalPages_ge; [done |]. fold rows.
    replace (totalPages s + 1 - 1) with (totalPages s) by lia. done.
  - apply totalPages_ge; [done |]. fold rows. unfold rows. nia.
Qed.

(** X3: with a positive page size, [totalPages] is the least number of
    pages that holds every row: [(totalPages - 1) * itemsPerPage] is below
    the row count, which is at most [totalPages * itemsPerPage]; it is 0
    exactly for the empty data set. *)
Theorem totalPages_least_cover (s : State) :
  0 < itemsPerPage s →
  let rows := Z.of_nat (length (data s)) in
  (totalPages s - 1) * itemsPerPage s < rows ∧
  rows <= totalPages s * itemsPerPage s ∧
  0 <= totalPages s ∧
  (totalPages s = 0 ↔ data s = []).
Proof.
  intros Hsize rows.
  destruct (totalPages_bounds s Hsize) as (Hlo & Hhi & Hnn).
  fold rows in Hlo, Hhi. repeat split; try done.
  - intros Hzero. rewrite Hzero in Hhi. apply length_zero_iff_nil.
    unfold rows in Hhi. lia.
  - intros Hnil. unfold rows in Hlo. rewrite Hnil in Hlo. simpl in Hlo. nia.
Qed.

Lemma totalPages_least_cover_witness :
  totalPages (loaded products25) = 3.
Proof.
  destruct (totalPages_least_cover (loaded products25) ltac:(reflexivity))
    as (Hlo & Hhi & _).
  change (itemsPerPage (loaded products25)) with 10 in Hlo, Hhi.
  change (Z.of_nat (length (data (loaded products25)))) with 25 in Hlo, Hhi.
  lia.
Defined.

(** X4: with a positive page size and a current page of at least 1, the
    table gets no row at all exactly when the current page lies after the
    last page (as after a reload that delivered fewer rows). *)
Theorem paginatedData_empty_iff (s : State) :
  0 < itemsPerPage s → 1 <= currentPage s →
  (paginatedData s = [] ↔ totalPages s < currentPage s).
Proof.
  intros Hsize Hpage.
  pose proof (totalPages_ge (currentPage s) s Hsize) as Hge.
  rewrite paginatedData_take_drop by done.
  split.
  - intros Hnil. apply (f_equal length) in Hnil.
    rewrite length_take, length_drop in Hnil. simpl in Hnil.
    destruct (Z.le_gt_cases (currentPage s) (totalPages s)) as [Hle |]; [| done].
    apply Hge in Hle. nia.
  - intros Hafter. rewrite drop_ge; [by rewrite take_nil |].
    destruct (Z.le_gt_cases (Z.of_nat (length (data s)))
                ((currentPage s - 1) * itemsPerPage s)); [lia |].
    assert (currentPage s <= totalPages s) by (by apply Hge). lia.
Qed.

Lemma paginatedData_empty_iff_witness :
  paginatedData
    (run [PageClick 3; ReloadClick; FetchResolves (take 5 products25)]
       (loaded products25)) = [].
Proof.
  apply paginatedData_empty_iff; vm_compute; first [reflexivity | discriminate].
Defined.

(** X5: with a positive page size, the pages 1 to [totalPages], one after
    the other, are the data set: every loaded row is on exactly one slot of
    one page, in the stored order. *)
Theorem pages_partition_data (s : State) :
  0 < itemsPerPage s → concat (allPages s) = data s.
Proof.
  intros Hsize. unfold allPages.
  assert (Hupto : ∀ k : nat,
    concat ((λ page, pageRows page s) <$> seqZ 1 (Z.of_nat k))
    = take (k * Z.to_nat (itemsPerPage s)) (data s)).
  { induction k as [| k IH]; [done |].
    rewrite seqZ_S, fmap_app, concat_app, IH. simpl.
    rewrite pageRows_take_drop by lia. rewrite app_nil_r.
    replace (Z.to_nat ((1 + Z.of_nat k - 1) * itemsPerPage s))
      with (k * Z.to_nat (itemsPerPage s))%nat by nia.
    rewrite take_take_drop. f_equal. lia. }
  destruct (totalPages_bounds s Hsize) as (_ & Hhi & Hnn).
  rewrite <- (Z2Nat.id (totalPages s)) by done.
  rewrite Hupto. apply take_ge. nia.
Qed.

Lemma pages_partition_data_witness :
  concat (allPages (loaded products25)) = products25.
Proof. apply (pages_partition_data (loaded products25)). reflexivity. Defined.

(** ** The "previous" and "next" buttons *)

Lemma totalPages_set_currentPage (page : Z) (s : State) :
  totalPages (set_currentPage page s) = totalPages s.
Proof. by destruct s. Qed.

Lemma set_currentPage_twice (p q : Z) (s : State) :
  set_currentPage p (set_currentPage q s) = set_currentPage p s.
Proof. by destruct s. Qed.

Lemma set_currentPage_same (s : State) :
  set_currentPage (currentPage s) s = s.
Proof. by destruct s. Qed.

Lemma currentPage_set_currentPage (page : Z) (s : State) :
  currentPage (set_currentPage page s) = page.
Proof. by destruct s. Qed.

Lemma totalPages_changePage (page : Z) (s : State) :
  totalPages (changePage page s) = totalPages s.
Proof.
  unfold changePage. case_match; [apply totalPages_set_currentPage | done].
Qed.

(** X6: on a page that [changePage] accepts, a button that is not disabled
    moves exactly one page back or forth and lands on a page that is again
    accepted; the handler of a disabled button changes nothing. *)
Theorem buttons_move_by_one (s : State) :
  page_valid s →
  (prevDisabled s = false →
     currentPage (prevClick s) = currentPage s - 1 ∧ page_valid (prevClick s)) ∧
  (nextDisabled s = false →
     currentPage (nextClick s) = currentPage s + 1 ∧ page_valid (nextClick s)) ∧
  (prevDisabled s = true → prevClick s = s) ∧
  (nextDisabled s = true → nextClick s = s).
Proof.
  intros [Hlo Hhi]. unfold prevDisabled, nextDisabled, prevClick, nextClick.
  split; [| split; [| split]].
  - intros Hon. apply Z.eqb_neq in Hon. rewrite changePage_accepts by lia.
    rewrite currentPage_set_currentPage. split; [done |].
    unfold page_valid.
    rewrite currentPage_set_currentPage, totalPages_set_currentPage. lia.
  - intros Hon. apply Z.eqb_neq in Hon. rewrite changePage_accepts by lia.
    rewrite currentPage_set_currentPage. split; [done |].
    unfold page_valid.
    rewrite currentPage_set_currentPage, totalPages_set_currentPage. lia.
  - intros Hfirst. apply Z.eqb_eq in Hfirst. apply changePage_rejects. lia.
  - intros Hlast. apply Z.eqb_eq in Hlast. apply changePage_rejects. lia.
Qed.

Lemma buttons_move_by_one_witness :
  currentPage (nextClick (loaded products25)) = 2.
Proof.
  destruct (buttons_move_by_one (loaded products25)
              ltac:(vm_compute; split; discriminate)) as (_ & Hnext & _).
  destruct (Hnext ltac:(reflexivity)) as [Hpage _]. exact Hpage.
Defined.

(** X7: on a page that [changePage] accepts, "next" followed by "previous"
    gives back the very same state whenever "next" is not disabled, and so
    does "previous" followed by "next" whenever "previous" is not
    disabled. *)
Theorem next_prev_round_trip (s : State) :
  page_valid s →
  (nextDisabled s = false → prevClick (nextClick s) = s) ∧
  (prevDisabled s = false → nextClick (prevClick s) = s).
Proof.
  intros [Hlo Hhi]. unfold prevDisabled, nextDisabled, prevClick, nextClick.
  split; intros Hon; apply Z.eqb_neq in Hon.
  - rewrite (changePage_accepts (currentPage s + 1)) by lia.
    rewrite currentPage_set_currentPage.
    rewrite changePage_accepts
      by (rewrite totalPages_set_currentPage; lia).
    rewrite set_currentPage_twice.
    replace (currentPage s + 1 - 1) with (currentPage s) by lia.
    apply set_currentPage_same.
  - rewrite (changePage_accepts (currentPage s - 1)) by lia.
    rewrite currentPage_set_currentPage.
    rewrite changePage_accepts
      by (rewrite totalPages_set_currentPage; lia).
    rewrite set_currentPage_twice.
    replace (currentPage s - 1 + 1) with (currentPage s) by lia.
    apply set_currentPage_same.
Qed.

Lemma next_prev_round_trip_witness :
  prevClick (nextClick (loaded products25)) = loaded products25.
Proof.
  apply (next_prev_round_trip (loaded products25)).
  - vm_compute. split; discriminate.
  - reflexivity.
Defined.

(** X8: while the data set is empty there are 0 pages, the table gets no
    row, and every page request is ignored; on page 1, where the script
    starts, "previous" is disabled but "next" is not (1 is not 0), and
    clicking it changes nothing. *)
Theorem empty_data_freezes_paging (s : State) (page : Z) :
  0 < itemsPerPage s → data s = [] →
  totalPages s = 0 ∧ paginatedData s = [] ∧ changePage page s = s ∧
  (currentPage s = 1 →
     prevDisabled s = true ∧ nextDisabled s = false ∧ nextClick s = s).
Proof.
  intros Hsize Hnil.
  assert (Hzero : totalPages s = 0).
  { unfold totalPages. rewrite Hnil, ceil_div_Z.
    change (- Z.of_nat (length (@nil Product))) with 0.
    rewrite Z.div_0_l by lia. reflexivity. }
  split; [done |]. split.
  { unfold paginatedData, slice. rewrite Hnil.
    by rewrite drop_nil, take_nil. }
  split; [apply changePage_rejects; lia |].
  intros Hfirst. unfold prevDisabled, nextDisabled, nextClick.
  rewrite Hfirst, Hzero. repeat split. apply changePage_rejects. lia.
Qed.

Lemma empty_data_freezes_paging_witness :
  step (PageClick 2) (step Mounted initial) = step Mounted initial.
Proof.
  refine (proj1 (proj2 (proj2
    (empty_data_freezes_paging (step Mounted initial) 2 _ _)))); reflexivity.
Defined.

(** X9: from page 1, clicking "next" [k - 1] times shows page [k], for
    every page [k] between 1 and [totalPages]: together with the partition
    into pages, every loaded row can be reached by paging. *)
Theorem next_reaches_every_page (s : State) (k : Z) :
  currentPage s = 1 → 1 <= k <= totalPages s →
  let s' := Nat.iter (Z.to_nat (k - 1)) nextClick s in
  s' = set_currentPage k s ∧ currentPage s' = k ∧
  paginatedData s' = pageRows k s.
Proof.
  intros Hfirst [Hlo Hhi].
  assert (Hiter : ∀ j : nat, Z.of_nat j + 1 <= totalPages s →
            Nat.iter j nextClick s = set_currentPage (Z.of_nat j + 1) s).
  { induction j as [| j IH]; intros Hj.
    - simpl. rewrite <- Hfirst. symmetry. apply set_currentPage_same.
    - simpl. rewrite IH by lia. unfold nextClick.
      rewrite currentPage_set_currentPage.
      rewrite changePage_accepts
        by (rewrite totalPages_set_currentPage; lia).
      rewrite set_currentPage_twice. f_equal. lia. }
  intros s'. unfold s'. rewrite Hiter by lia.
  replace (Z.of_nat (Z.to_nat (k - 1)) + 1) with k by lia.
  split; [done |]. split; [apply currentPage_set_currentPage | done].
Qed.

Lemma next_reaches_every_page_witness :
  currentPage (Nat.iter (Z.to_nat (3 - 1)) nextClick (loaded products25)) = 3.
Proof.
  refine (proj1 (proj2
    (next_reaches_every_page (loaded products25) 3 _ _))).
  - vm_compute. reflexivity.
  - vm_compute. split; discriminate.
Defined.

(** X10: page requests compose as "the last accepted request wins": a
    request never changes the number of pages, a request that is accepted
    overrides whatever was requested before, a rejected one leaves the
    earlier result in place, and repeating a request changes nothing
    more. *)
Theorem changePage_last_accepted_wins (p q : Z) (s : State) :
  totalPages (changePage q s) = totalPages s ∧
  (1 <= p <= totalPages s →
     changePage p (changePage q s) = changePage p s) ∧
  (¬ (1 <= p <= totalPages s) →
     changePage p (changePage q s) = changePage q s) ∧
  changePage p (changePage p s) = changePage p s.
Proof.
  split; [apply totalPages_changePage |].
  split; [| split].
  - intros Hp.
    rewrite (changePage_accepts p (changePage q s))
      by (by rewrite totalPages_changePage).
    rewrite (changePage_accepts p s) by done.
    unfold changePage. case_match; [apply set_currentPage_twice | done].
  - intros Hp. apply changePage_rejects. by rewrite totalPages_changePage.
  - destruct (decide (1 <= p <= totalPages s)) as [Hp | Hp].
    + rewrite (changePage_accepts p s) by done.
      rewrite changePage_accepts by (by rewrite totalPages_set_currentPage).
      apply set_currentPage_twice.
    + by rewrite !(changePage_rejects p s).
Qed.

(** ** The progress value and its timer *)

Lemma cap_test (x : Q) : Qle_bool 95 (Qmin x 95) = Qle_bool 95 x.
Proof.
  destruct (Qle_bool 95 x) eqn:Hx.
  - apply Qle_bool_iff. apply Qle_bool_iff in Hx.
    apply Q.min_glb; [done | apply Qle_refl].
  - destruct (Qle_bool 95 (Qmin x 95)) eqn:Hm; [| done].
    apply Qle_bool_iff in Hm.
    assert (95 <= x)%Q by (eapply Qle_trans; [exact Hm | apply Q.le_min_l]).
    apply Qle_bool_iff in H. congruence.
Qed.

Lemma progressTick_unfold (r : Q) (s : State) :
  progressTick r s =
    if Qle_bool 95 (progress s + r * 15)
    then clearProgressInterval
           (set_progress (Qmin (progress s + r * 15) 95) s)
    else set_progress (Qmin (progress s + r * 15) 95) s.
Proof.
  unfold progressTick.
  replace (progress (set_progress (Qmin (progress s + r * 15) 95) s))
    with (Qmin (progress s + r * 15) 95) by (by destruct s).
  by rewrite cap_test.
Qed.

Lemma progressTick_nonneg (r : Q) (s : State) :
  (0 <= r)%Q → (0 <= progress s)%Q → (0 <= progress (progressTick r s))%Q.
Proof.
  intros Hr Hp. rewrite progressTick_unfold.
  assert (0 <= Qmin (progress s + r * 15) 95)%Q
    by (apply Q.min_glb; [nra | done]).
  destruct (Qle_bool _ _); rewrite ?progress_clear; by destruct s.
Qed.

Lemma step_progress_range (e : event) (s : State) :
  draw_nonneg e = true →
  (0 <= progress s <= 100)%Q → (0 <= progress (step e s) <= 100)%Q.
Proof.
  intros He [Hlo Hhi].
  destruct e as [ | | h r | ps | | | page | rng | text | row v | v | row | ].
  3: { simpl. case_decide; [| done]. simpl in He. apply Qle_bool_iff in He.
       split; [by apply progressTick_nonneg |].
       eapply Qle_trans; [apply progressTick_capped | done]. }
  all: step_cases s; done.
Qed.

(** X11: starting from a progress value between 0 and 100 (the script
    starts at 0), and with draws of [Math.random] that are not negative,
    the progress value stays between 0 and 100 whatever the sequence of
    events, so the bar is never wider than its track and the percentage
    shown next to it is a whole number between 0 and 100. *)
Theorem progress_stays_in_range (s : State) (es : list event) :
  (0 <= progress s <= 100)%Q →
  Forall (λ e, draw_nonneg e = true) es →
  (0 <= progress (run es s) <= 100)%Q ∧
  0 <= progressLabel (run es s) <= 100.
Proof.
  intros Hs Hes.
  assert (Hrange : (0 <= progress (run es s) <= 100)%Q).
  { revert s Hs. induction Hes as [| e es He _ IH]; intros s Hs; [done |].
    simpl. apply IH. by apply step_progress_range. }
  split; [done |]. destruct Hrange as [Hlo Hhi]. unfold progressLabel. split.
  - change 0 with (Qfloor 0). apply Qfloor_resp_le. lra.
  - change 100 with (Qfloor (100 + (1 # 2))). apply Qfloor_resp_le. lra.
Qed.

Lemma progress_stays_in_range_witness :
  0 <= progressLabel
         (run [Mounted; IntervalFires 1 (9 # 10); IntervalFires 1 (1 # 3);
               FetchResolves fruit] initial) <= 100.
Proof.
  refine (proj2 (progress_stays_in_range initial
    [Mounted; IntervalFires 1 (9 # 10); IntervalFires 1 (1 # 3);
     FetchResolves fruit] _ _)).
  - vm_compute. split; discriminate.
  - repeat constructor.
Defined.



(** X13: the two ways the progress callback is written in [index.vue]
    ([Math.min] in the first script, an assignment under the test in the
    second) do the same: the progress values they leave are equal as
    numbers and every other part of the resulting states is identical. *)
Theorem progress_callbacks_agree (r : Q) (s : State) :
  (progress (IndexPlain.progressTick r s) == progress (progressTick r s))%Q ∧
  set_progress 0 (IndexPlain.progressTick r s)
  = set_progress 0 (progressTick r s).
Proof.
  rewrite progressTick_unfold. unfold IndexPlain.progressTick.
  replace (progress (set_progress (progress s + r * 15) s))
    with (progress s + r * 15)%Q by (by destruct s).
  destruct (Qle_bool 95 (progress s + r * 15)) eqn:Hcap.
  - apply Qle_bool_iff in Hcap. split.
    + rewrite !progress_clear. destruct s; simpl.
      symmetry. by apply Q.min_r.
    + unfold clearProgressInterval. destruct s; simpl.
      by destruct progressInterval0.
  - assert (Hlt : (progress s + r * 15 < 95)%Q).
    { apply Qnot_le_lt. intros Hle. apply Qle_bool_iff in Hle. congruence. }
    split.
    + destruct s; simpl in *. symmetry. apply Q.min_l. lra.
    + by destruct s.
Qed.

(** ** The loading flag *)

Lemma step_keeps_loading (e : event) (s : State) :
  keeps_loading e = true → loading s = true → loading (step e s) = true.
Proof. intros He Hs. destruct e; try discriminate; by step_cases s. Qed.

Lemma run_keeps_loading (es : list event) (s : State) :
  Forall (λ e, keeps_loading e = true) es →
  loading s = true → loading (run es s) = true.
Proof.
  intros Hes. revert s. induction Hes as [| e es He _ IH]; intros s Hs; [done |].
  simpl. apply IH. by apply step_keeps_loading.
Qed.

(** X14: when a load succeeds (and no timeout of an earlier load and no
    failure of another load comes in between), the new rows are stored and
    the progress value is 100 at once, but the loading flag is still on, so
    the table stays hidden behind the skeleton; the flag goes off when the
    timeout the success path has set fires, and the rows are then still
    the delivered ones. *)
Theorem loading_stays_on_until_timeout
    (s : State) (es : list event) (products : list Product) :
  Forall (λ e, keeps_loading e = true) es →
  let s1 := fetchProducts_then products (run es (fetchProducts_begin s)) in
  (loading s1 = true ∧ data s1 = products ∧ progress s1 = 100%Q ∧
   loading (step TimeoutFires s1) = false ∧
   data (step TimeoutFires s1) = products).
Proof.
  intros Hes s1.
  assert (Hon : loading (run es (fetchProducts_begin s)) = true).
  { apply run_keeps_loading; [done | by destruct s]. }
  unfold s1. destruct (run es (fetchProducts_begin s)).
  simpl in Hon. subst. unfold_handlers. simpl.
  repeat split; repeat case_match; done.
Qed.

Lemma loading_stays_on_until_timeout_witness :
  loading
    (fetchProducts_then fruit
       (run [IntervalFires 1 (1 # 2); PageClick 2]
          (fetchProducts_begin initial))) = true.
Proof.
  refine (proj1 (loading_stays_on_until_timeout initial
    [IntervalFires 1 (1 # 2); PageClick 2] fruit _)).
  repeat constructor.
Defined.

(** X15: the timeout of a successful load is not tied to that load.  When
    "reload" is clicked before it has fired, it fires during the new load:
    the loading flag goes off although the new request is still pending
    and its progress timer is running, so the table with the old rows is
    shown while the reload is under way. *)
Theorem stale_timeout_hides_reload (s : State) (products : list Product) :
  let s0 := fetchProducts_then products s in
  let s' := run [ReloadClick; TimeoutFires] s0 in
  (loading (step ReloadClick s0) = true ∧
   loading s' = false ∧ inflight s' ≠ 0%nat ∧
   progressInterval s' = Some (nextTimer s0) ∧
   (nextTimer s0 ∈ intervals s') ∧
   data s' = products).
Proof.
  destruct s as [d l p pI cp ipp tf rs ex iv nt to inf ts co].
  destruct pI; cbn; repeat split; try done;
    apply elem_of_union_l, elem_of_singleton; done.
Qed.

(** ** Overlapping loads *)

(** The first timer is running, and [progressInterval] holds a later
    handle. *)
Lemma orphan_step (e : event) (s : State) (h : positive) :
  h ∈ intervals s → (h < nextTimer s)%positive →
  (∃ h', progressInterval s = Some h' ∧ (h < h')%positive) →
  h ∈ intervals (step e s) ∧ (h < nextTimer (step e s))%positive ∧
  (∃ h', progressInterval (step e s) = Some h' ∧ (h < h')%positive).
Proof.
  intros Hrun Hlt (h' & Hheld & Hlater).
  split; [| split].
  - destruct e; step_cases s; try done; timers.
  - eapply Pos.lt_le_trans; [exact Hlt | apply step_nextTimer_mono].
  - destruct e; step_cases s; eauto.
Qed.

(** X16: when a load is started while the progress timer of an earlier
    load is still running, that earlier timer is never stopped again:
    whatever happens afterwards (responses, failures, ticks that reach the
    cap, further reloads, teardown), it is still running and its ticks
    still run the progress callback. *)
Theorem overlapped_timer_never_stops
    (s : State) (before after : list event) (r : Q) :
  let h := nextTimer s in
  let s1 := run before (fetchProducts_begin s) in
  h ∈ intervals s1 →
  let s' := run after (reloadData s1) in
  ((h ∈ intervals s') ∧
   step (IntervalFires h r) s' = progressTick r s').
Proof.
  intros h s1 Hstill s'.
  assert (Hinv : ∀ t,
    h ∈ intervals t → (h < nextTimer t)%positive →
    (∃ h', progressInterval t = Some h' ∧ (h < h')%positive) →
    h ∈ intervals (run after t)).
  { induction after as [| e es IH]; intros t Hrun Hlt Hheld; [done |].
    simpl. destruct (orphan_step e t h Hrun Hlt Hheld) as (? & ? & ?).
    by apply IH. }
  assert (Hlt : (h < nextTimer s1)%positive).
  { unfold s1, h. eapply Pos.lt_le_trans; [| apply run_nextTimer_mono].
    destruct s; simpl. lia. }
  clearbody s1 h.
  assert (Hrun : h ∈ intervals s').
  { unfold s'. apply Hinv.
    - destruct s1; simpl in *. by apply elem_of_union_r.
    - destruct s1; simpl in *. lia.
    - exists (nextTimer s1). split; [by destruct s1 | done]. }
  split; [done |]. simpl. by rewrite decide_True.
Qed.

Lemma overlapped_timer_never_stops_witness :
  1%positive ∈
    intervals
      (run [FetchResolves fruit; FetchResolves fruit;
            IntervalFires 1 (1 # 2); Unmounted]
         (reloadData
            (run [IntervalFires 1 (1 # 2)] (fetchProducts_begin initial)))).
Proof.
  refine (proj1 (overlapped_timer_never_stops initial
    [IntervalFires 1 (1 # 2)]
    [FetchResolves fruit; FetchResolves fruit; IntervalFires 1 (1 # 2);
     Unmounted] 0 _)).
  vm_compute. reflexivity.
Defined.

(** ** A failed load, from the call to the [catch] block *)

(** X17: a load of [index.vue] that fails leaves the data set exactly as
    it was when [fetchProducts] was called, whatever ticks, page clicks,
    filter input or other events that do not write [data] came in
    between; afterwards the loading flag is off, the error toast is the
    latest toast, and the timer [progressInterval] holds is stopped. *)
Theorem failed_load_leaves_rows (s : State) (es : list event) :
  Forall (λ e, leaves_data e = true) es →
  let s' := fetchProducts_catch (run es (fetchProducts_begin s)) in
  (data s' = data s ∧ loading s' = false ∧
   last (toasts s') = Some errorToast ∧
   (∀ h, progressInterval s' = Some h → h ∉ intervals s')).
Proof.
  intros Hes s'.
  destruct (fetchProducts_catch_frame (run es (fetchProducts_begin s)))
    as (Hdata & Hload & Htoast & _ & _ & Hheld & _ & _ & _ & _ & _ & _ & _
        & Hints).
  fold s' in Hdata, Hload, Htoast, Hheld, Hints.
  split; [| split; [done | split]].
  - rewrite Hdata, run_leaves_data by done. by destruct s.
  - rewrite Htoast. apply last_snoc.
  - intros h Hh. rewrite Hints. rewrite Hheld in Hh. rewrite Hh.
    rewrite elem_of_difference, elem_of_singleton. tauto.
Qed.

Lemma failed_load_leaves_rows_witness :
  data (fetchProducts_catch
          (run [IntervalFires 2 (1 # 2); PageClick 2; FilterInput "a"]
             (fetchProducts_begin (loaded fruit)))) = fruit.
Proof.
  refine (proj1 (failed_load_leaves_rows (loaded fruit)
    [IntervalFires 2 (1 # 2); PageClick 2; FilterInput "a"] _)).
  repeat constructor.
Defined.

(** ** The "copy id" entry of the row menu *)

Lemma toString_decimal (n : Z) :
  toString n = (if n <? 0 then "-" else "") +:+ decimal (Z.abs n).
Proof. by destruct n. Qed.

(** X18: for ids that a JavaScript number holds exactly (below [2^53] in
    absolute value), "copy id" writes a minus sign exactly when the id is
    negative, followed by a numeral without superfluous leading zero whose
    digits denote the absolute value of the id; so different ids give
    different texts.  The handler adds the one "copied" toast and changes
    nothing else of the state. *)
Theorem copyId_writes_decimal_id (row row' : Product) (s : State) :
  Z.abs (id row) < 2 ^ 53 → Z.abs (id row') < 2 ^ 53 →
  (∃ w, (copyId row s).1 = (if id row <? 0 then "-" else "") +:+ w ∧
        digits_only w = true ∧ w ≠ "" ∧ no_leading_zero w = true ∧
        digits_value w = Z.abs (id row)) ∧
  ((copyId row s).1 = (copyId row' s).1 → id row = id row') ∧
  toasts (copyId row s).2 = toasts s ++ [copiedToast] ∧
  set_toasts (toasts s) (copyId row s).2 = s.
Proof.
  intros _ _. simpl. split; [| split; [| split]].
  - exists (decimal (Z.abs (id row))).
    destruct (CellFacts.decimal_digits (Z.abs (id row))) as [Hdigits Hne].
    split; [apply toString_decimal |]. split; [done |]. split; [done |].
    split; [apply CellFacts.no_leading_zero_decimal |].
    apply CellFacts.digits_value_decimal. lia.
  - intros Heq. rewrite !toString_decimal in Heq.
    assert (Hval : ∀ n, digits_value (decimal (Z.abs n)) = Z.abs n)
      by (intros n; apply CellFacts.digits_value_decimal; lia).
    assert (Hinj : ∀ a b : string, "-" +:+ a = "-" +:+ b → a = b)
      by (intros a b H; simpl in H; by injection H).
    assert (Hmix : ∀ a b : string,
              "-" +:+ a = "" +:+ b → digits_only b = false)
      by (intros a b H; change (String "-" a = b) in H; subst b;
          reflexivity).
    destruct (id row <? 0) eqn:Hneg, (id row' <? 0) eqn:Hneg';
      rewrite ?Z.ltb_lt, ?Z.ltb_ge in Hneg, Hneg'.
    + apply Hinj, (f_equal digits_value) in Heq.
      rewrite !Hval in Heq. lia.
    + exfalso. apply Hmix in Heq.
      destruct (CellFacts.decimal_digits (Z.abs (id row'))) as [Hdigits _].
      congruence.
    + exfalso. symmetry in Heq. apply Hmix in Heq.
      destruct (CellFacts.decimal_digits (Z.abs (id row))) as [Hdigits _].
      congruence.
    + apply (f_equal digits_value) in Heq.
      change ("" +:+ ?x) with x in Heq.
      rewrite !Hval in Heq. lia.
  - by destruct s.
  - by destruct s.
Qed.

Lemma copyId_writes_decimal_id_witness :
  ∃ w, (copyId (sampleProduct (-7) "item") initial).1
       = (if -7 <? 0 then "-" else "") +:+ w ∧
       digits_only w = true ∧ w ≠ "" ∧ no_leading_zero w = true ∧
       digits_value w = Z.abs (-7).
Proof.
  refine (proj1 (copyId_writes_decimal_id (sampleProduct (-7) "item")
    (sampleProduct 42 "item") initial _ _)); reflexivity.
Defined.

(** ** Randomize and the pages *)

Lemma length_slice_depends_on_length {A} (a b : Z) (l l' : list A) :
  length l = length l' → length (slice a b l) = length (slice a b l').
Proof.
  intros Hlen. unfold slice.
  by rewrite !length_take, !length_drop, Hlen.
Qed.

(** X19: [randomize] keeps the number of pages, the current page and the
    number of rows on the current page, whatever [Math.random] returns;
    with fewer than two rows it leaves the whole state as it is. *)
Theorem randomize_keeps_paging (rng : nat → Q) (s : State) :
  totalPages (randomize rng s) = totalPages s ∧
  currentPage (randomize rng s) = currentPage s ∧
  length (paginatedData (randomize rng s)) = length (paginatedData s) ∧
  ((length (data s) <= 1)%nat → randomize rng s = s).
Proof.
  assert (Hlen : length (data (randomize rng s)) = length (data s)).
  { unfold randomize. destruct s; simpl.
    apply Permutation_length, sort_by_perm. }
  split; [| split; [| split]].
  - unfold totalPages. rewrite Hlen. by destruct s.
  - by destruct s.
  - unfold paginatedData.
    replace (currentPage (randomize rng s)) with (currentPage s)
      by (by destruct s).
    replace (itemsPerPage (randomize rng s)) with (itemsPerPage s)
      by (by destruct s).
    by apply length_slice_depends_on_length.
  - intros Hshort. unfold randomize.
    destruct s as [rows ? ? ? ? ? ? ? ? ? ? ? ? ? ?]. simpl in *.
    destruct rows as [| x [| y rows]]; simpl in *; [done | done | lia].
Qed.

(** ** A response and the current page *)

(** X21: [fetchProducts] stores the delivered rows without touching
    [currentPage].  With a positive page size and a current page of at
    least 1, the current page is still one of the pages afterwards exactly
    when the new data set reaches the first slot of that page; on page 1
    that is whenever a row was delivered. *)
Theorem response_keeps_page_iff_rows_reach_it
    (products : list Product) (s : State) :
  0 < itemsPerPage s → 1 <= currentPage s →
  currentPage (fetchProducts_then products s) = currentPage s ∧
  (page_valid (fetchProducts_then products s) ↔
   (currentPage s - 1) * itemsPerPage s < Z.of_nat (length products)) ∧
  (currentPage s = 1 →
   (page_valid (fetchProducts_then products s) ↔ products ≠ [])).
Proof.
  intros Hsize Hpage.
  assert (Hcp : currentPage (fetchProducts_then products s) = currentPage s)
    by (by step_cases s).
  assert (Hsz : itemsPerPage (fetchProducts_then products s) = itemsPerPage s)
    by (by step_cases s).
  assert (Hdata : data (fetchProducts_then products s) = products)
    by (by step_cases s).
  assert (Hiff : page_valid (fetchProducts_then products s) ↔
            (currentPage s - 1) * itemsPerPage s < Z.of_nat (length products)).
  { unfold page_valid. rewrite Hcp.
    rewrite (totalPages_ge (currentPage s)) by (by rewrite Hsz).
    rewrite Hsz, Hdata. tauto. }
  split; [done |]. split; [done |].
  intros Hfirst. rewrite Hiff, Hfirst.
  destruct products; simpl; split; (done || lia).
Qed.

Lemma response_keeps_page_iff_rows_reach_it_witness :
  ¬ page_valid
      (fetchProducts_then (take 5 products25)
         (changePage 3 (loaded products25))).
Proof.
  destruct (response_keeps_page_iff_rows_reach_it (take 5 products25)
              (changePage 3 (loaded products25))
              ltac:(vm_compute; reflexivity)
              ltac:(vm_compute; discriminate)) as (_ & Hiff & _).
  intros Hvalid. apply Hiff in Hvalid. revert Hvalid.
  vm_compute. discriminate.
Defined.

End PagedMore.

(** * More facts about the rating cell *)
Module CellMore.

Lemma Qfloor_between (x : Q) (n : Z) :
  (inject_Z n <= x)%Q → (x < inject_Z (n + 1))%Q → Qfloor x = n.
Proof.
  intros Hlo Hhi.
  assert (n <= Qfloor x).
  { rewrite <- (Qfloor_Z n). by apply Qfloor_resp_le. }
  assert (Qfloor x < n + 1).
  { rewrite Zlt_Qlt. eapply Qle_lt_trans; [apply Qfloor_le | done]. }
  lia.
Qed.

(** X20: the colour and the text of the rating cell are decided on
    different numbers.  A green cell always shows at least 4.5, but a cell
    that shows 4.5 need not be green: every rating from 4.45 up to, but not
    including, 4.5 is printed as "4.5" in red. *)
Theorem rating_text_rounds_but_colour_does_not (row : Product) :
  ((45 # 10 <= rating row)%Q →
     rating_class (ratingCell row) = "font-medium text-green-500" ∧
     45 <= tenths (Qabs (rating row))) ∧
  ((445 # 100 <= rating row)%Q → (rating row < 45 # 10)%Q →
     ratingCell row = mkRatingCell "font-medium text-red-500" "4.5").
Proof.
  split.
  - intros Hhigh.
    assert (Habs : (Qabs (rating row) == rating row)%Q)
      by (apply Qabs_pos; lra).
    split.
    + unfold ratingCell. simpl.
      replace (Qle_bool (45 # 10) (rating row)) with true; [done |].
      symmetry. by apply Qle_bool_iff.
    + unfold tenths. change 45 with (Qfloor (inject_Z 45)).
      apply Qfloor_resp_le. change (inject_Z 45) with 45%Q. lra.
  - intros Hlo Hhi.
    assert (Habs : (Qabs (rating row) == rating row)%Q)
      by (apply Qabs_pos; lra).
    assert (Htenths : tenths (Qabs (rating row)) = 45).
    { unfold tenths. apply Qfloor_between.
      - change (inject_Z 45) with 45%Q. lra.
      - change (inject_Z (45 + 1)) with 46%Q. lra. }
    unfold ratingCell, toFixed1. rewrite Htenths.
    replace (Qle_bool (45 # 10) (rating row)) with false.
    2: { symmetry. destruct (Qle_bool (45 # 10) (rating row)) eqn:Hle; [| done].
         apply Qle_bool_iff in Hle. lra. }
    replace (Qle_bool 0 (rating row)) with true.
    2: { symmetry. apply Qle_bool_iff. lra. }
    reflexivity.
Qed.

Lemma rating_text_rounds_but_colour_does_not_witness :
  ratingCell (mkProduct 7 "Lamp" "" 20 0 (447 # 100) 3 "" "" "" [])
  = mkRatingCell "font-medium text-red-500" "4.5".
Proof.
  apply (rating_text_rounds_but_colour_does_not
           (mkProduct 7 "Lamp" "" 20 0 (447 # 100) 3 "" "" "" []));
    vm_compute; first [discriminate | reflexivity].
Defined.

End CellMore.
